(** * Deviation pipeline of [main.py]: column mapping, baselines, per-row
    deviation detection and the summary counters.

    How the program is read here:
    - a number is an IEEE binary64 value, as in the float columns of the
      pandas frame; a missing value is NaN.  The operands of the
      comparisons are numpy floats (the baseline is one), so a division by
      zero gives an infinity or NaN and does not raise;
    - a Python dictionary is an association list in insertion order,
      because the program iterates over its dictionaries;
    - a look-up that can raise ([df[col]], [row[col]], arithmetic on a text
      cell) returns [option];
    - the table is the frame that [pd.read_csv] returns: distinct column
      labels, the default index 0, 1, ..., and one cell per column in
      every row ([wf_df]);
    - the rendering of the PDF is left out: [run] stops at the tables and
      counters that are handed to it. *)

From Stdlib Require Import PrimFloat List String Ascii Bool Arith PeanoNat Lia.
From Stdlib Require Import Sorted.
Set Warnings "-inexact-float".
Import ListNotations.
Local Open Scope list_scope.

(** ** Error monad *)

Definition bind {A B : Type} (m : option A) (k : A -> option B) : option B :=
  match m with
  | Some a => k a
  | None => None
  end.

Notation "x <- m ;; k" := (bind m (fun x => k))
  (at level 61, m at next level, right associativity).
Notation "' p <- m ;; k" := (bind m (fun x => match x with p => k end))
  (at level 61, p pattern, m at next level, right associativity).

Fixpoint mapM {A B : Type} (f : A -> option B) (l : list A) : option (list B) :=
  match l with
  | [] => Some []
  | a :: t => b <- f a ;; bs <- mapM f t ;; Some (b :: bs)
  end.

(** A [for] loop whose body may raise: the state is threaded from left to
    right and the first failure aborts the loop. *)
Fixpoint foldM {S A : Type} (f : S -> A -> option S) (l : list A) (s : S)
  : option S :=
  match l with
  | [] => Some s
  | a :: t => s' <- f s a ;; foldM f t s'
  end.

(** ** Python strings: [str.strip] and [str.lower]

    A character is a code point below 256. *)

Definition is_space (c : ascii) : bool :=
  let n := nat_of_ascii c in
  ((9 <=? n) && (n <=? 13)) || ((28 <=? n) && (n <=? 32))
  || (n =? 133) || (n =? 160).

Definition lower_char (c : ascii) : ascii :=
  let n := nat_of_ascii c in
  if ((65 <=? n) && (n <=? 90))
     || ((192 <=? n) && (n <=? 222) && negb (n =? 215))
  then ascii_of_nat (n + 32) else c.

Fixpoint lstrip (s : string) : string :=
  match s with
  | EmptyString => EmptyString
  | String c s' => if is_space c then lstrip s' else s
  end.

Fixpoint rstrip (s : string) : string :=
  match s with
  | EmptyString => EmptyString
  | String c s' =>
      match rstrip s' with
      | EmptyString => if is_space c then EmptyString else String c EmptyString
      | r => String c r
      end
  end.

Definition strip (s : string) : string := rstrip (lstrip s).

Fixpoint lower (s : string) : string :=
  match s with
  | EmptyString => EmptyString
  | String c s' => String (lower_char c) (lower s')
  end.

(** [x in l] on a list of strings. *)
Definition str_in (x : string) (l : list string) : bool :=
  existsb (String.eqb x) l.

(** ** Canonical signals and the alias table *)

Inductive signal : Type := heart_rate | spo2 | systolic_bp | diastolic_bp.

Definition signal_eqb (a b : signal) : bool :=
  match a, b with
  | heart_rate, heart_rate | spo2, spo2
  | systolic_bp, systolic_bp | diastolic_bp, diastolic_bp => true
  | _, _ => false
  end.

Definition signal_name (s : signal) : string :=
  match s with
  | heart_rate => "heart_rate"
  | spo2 => "spo2"
  | systolic_bp => "systolic_bp"
  | diastolic_bp => "diastolic_bp"
  end.

Definition all_signals : list signal :=
  [heart_rate; spo2; systolic_bp; diastolic_bp].

Definition COLUMN_MAP : list (signal * list string) :=
  [ (heart_rate, ["hr"; "heart rate"; "heartrate"; "heart_rate"]%string);
    (spo2, ["spo2"; "sp02"; "oxygen"; "blood oxygen"; "o2"]%string);
    (systolic_bp, ["sys"; "systolic"; "systolic bp"; "sbp"]%string);
    (diastolic_bp, ["dia"; "diastolic"; "diastolic bp"; "dbp"]%string) ].

(** ** Dictionaries keyed by signal, in insertion order *)

Definition dict (V : Type) : Type := list (signal * V).

(** [d[k] = v]: an existing key keeps its position, a new key goes last. *)
Fixpoint dict_set {V : Type} (d : dict V) (k : signal) (v : V) : dict V :=
  match d with
  | [] => [(k, v)]
  | (k', v') :: d' =>
      if signal_eqb k' k then (k', v) :: d' else (k', v') :: dict_set d' k v
  end.

Fixpoint dict_get {V : Type} (d : dict V) (k : signal) : option V :=
  match d with
  | [] => None
  | (k', v') :: d' => if signal_eqb k' k then Some v' else dict_get d' k
  end.

(** [k in d] *)
Definition dict_mem {V : Type} (d : dict V) (k : signal) : bool :=
  match dict_get d k with
  | Some _ => true
  | None => false
  end.

Definition keys {V : Type} (d : dict V) : list signal := map fst d.

(** ** The table *)

(** A cell as the reader leaves it: a number (NaN when empty) or text. *)
Inductive cell : Type :=
| Num (x : float)
| Text (s : string).

Record DataFrame : Type := {
  columns : list string;
  rows : list (list cell)
}.

(** Every row has one cell per column. *)
Definition wf_df (df : DataFrame) : bool :=
  forallb (fun r => List.length r =? List.length (columns df)) (rows df).

(** Position of a label among the columns; [None] is a [KeyError].  The
    labels of a frame are distinct, so the first position is the only one. *)
Fixpoint get_loc (cols : list string) (col : string) : option nat :=
  match cols with
  | [] => None
  | c :: t => if String.eqb c col then Some 0
              else j <- get_loc t col ;; Some (S j)
  end.

Fixpoint set_nth {A : Type} (j : nat) (v : A) (l : list A) : list A :=
  match l, j with
  | [], _ => []
  | _ :: t, 0 => v :: t
  | x :: t, S j' => x :: set_nth j' v t
  end.

(** [df[col]] *)
Definition get_column (df : DataFrame) (col : string) : option (list cell) :=
  j <- get_loc (columns df) col ;;
  mapM (fun r => nth_error r j) (rows df).

(** [df[col] = vals] *)
Definition set_column (df : DataFrame) (col : string) (vals : list cell)
  : option DataFrame :=
  j <- get_loc (columns df) col ;;
  Some {| columns := columns df;
          rows := map (fun rv => set_nth j (snd rv) (fst rv))
                      (combine (rows df) vals) |}.

(** [row[col]] for a row of [df.iterrows()] *)
Definition row_get (df : DataFrame) (row : list cell) (col : string)
  : option cell :=
  j <- get_loc (columns df) col ;; nth_error row j.

(** [pd.isna] on a scalar *)
Definition isna (c : cell) : bool :=
  match c with
  | Num x => PrimFloat.is_nan x
  | Text _ => false
  end.

(** The number in a cell; arithmetic on text raises. *)
Definition as_float (c : cell) : option float :=
  match c with
  | Num x => Some x
  | Text _ => None
  end.

Definition dropna (l : list cell) : list cell :=
  filter (fun c => negb (isna c)) l.

(** ** Events and the report *)

Record event : Type := {
  row : nat;
  signals : string;
  severity : nat
}.

Record Report : Type := {
  baselines : dict float;
  volatility : dict float;
  deviation_rows : list event;
  total_rows : nat;
  deviation_count : nat;
  max_severity : nat;
  multi_signal : nat
}.

(** [max(l, default=d)] *)
Definition py_max (l : list nat) (d : nat) : nat :=
  match l with
  | [] => d
  | x :: t => fold_left Nat.max t x
  end.

(** ** numpy's median and linear-interpolation percentile

    These follow numpy (1.22 and later), which pandas calls for
    [Series.median] and [Series.quantile] on a float column without
    missing values. *)

Fixpoint float_of_nat (n : nat) : float :=
  match n with
  | 0 => 0%float
  | S k => (float_of_nat k + 1)%float
  end.

Fixpoint insert_sorted (x : float) (l : list float) : list float :=
  match l with
  | [] => [x]
  | y :: t => if (x <=? y)%float then x :: l else y :: insert_sorted x t
  end.

Definition sort_floats (l : list float) : list float :=
  fold_right insert_sorted [] l.

Definition np_median (xs : list float) : float :=
  let a := sort_floats xs in
  let n := List.length a in
  if Nat.even n
  then ((nth (n / 2 - 1) a nan + nth (n / 2) a nan) / 2)%float
  else nth (n / 2) a nan.

(** Largest [j <= k] with [j <= pos], and 0 when there is none. *)
Fixpoint floor_index (pos : float) (k : nat) : nat :=
  match k with
  | 0 => 0
  | S k' => if (float_of_nat k <=? pos)%float then k else floor_index pos k'
  end.

Definition lerp (a b t : float) : float :=
  let d := (b - a)%float in
  if (0.5 <=? t)%float then (b - d * (1 - t))%float else (a + d * t)%float.

Definition np_quantile (xs : list float) (q : float) : float :=
  let a := sort_floats xs in
  let n := List.length a in
  let virtual := (float_of_nat (n - 1) * q)%float in
  if (float_of_nat (n - 1) <=? virtual)%float
  then (* at or above the last index: both neighbours are the last value *)
    lerp (nth (n - 1) a nan) (nth (n - 1) a nan) (virtual + 1)%float
  else
    let lo := floor_index virtual (n - 1) in
    lerp (nth lo a nan) (nth (lo + 1) a nan) (virtual - float_of_nat lo)%float.

(** ** Reading the tables the other way round

    The definitions of this part are not steps of the program: they say
    what a header, a column or a row of the input table contributes, and
    the theorems compare the program with them. *)

(** [COLUMN_MAP[s]] *)
Definition aliases (s : signal) : list string :=
  match find (fun sv => signal_eqb (fst sv) s) COLUMN_MAP with
  | Some sv => snd sv
  | None => []
  end.

(** The header, trimmed and lower-cased, is one of the aliases of [s]. *)
Definition header_matches (s : signal) (h : string) : bool :=
  str_in (lower (strip h)) (aliases s).

(** The first matching header in table order, and the last one. *)
Definition first_match (s : signal) (cols : list string) : option string :=
  find (header_matches s) cols.

Definition last_match (s : signal) (cols : list string) : option string :=
  find (header_matches s) (rev cols).

(** The trigger conditions, signal by signal, on a value [v] and a
    baseline [b]. *)
Definition trigger_condition (s : signal) (v b : float) : bool :=
  match s with
  | heart_rate => (0.15 <? abs (v - b) / b)%float
  | spo2 => (2 <? b - v)%float
  | systolic_bp => (10 <? abs (v - b))%float
  | diastolic_bp => (5 <? abs (v - b))%float
  end.

(** What the baseline loop stores for an interquartile range. *)
Definition stored_volatility (iqr : float) : float :=
  if (iqr =? 0)%float then 1e-6%float else iqr.

(** The cell of row [i] under the label [col]. *)
Definition cell_at (df : DataFrame) (i : nat) (col : string) : option cell :=
  j <- get_loc (columns df) col ;;
  r <- nth_error (rows df) i ;;
  nth_error r j.

(** The event of a row index and a non-empty list of triggered signals. *)
Definition event_of (i : nat) (t : list signal) : list event :=
  match t with
  | [] => []
  | _ => [{| row := i;
             signals := String.concat ", " (map signal_name t);
             severity := List.length t |}]
  end.

(** ** Tables used in the examples *)

(** The coercion of text cells that are not numbers. *)
Definition parse_nan (_ : string) : float := nan.

(** Five readings of the heart rate, the last one high. *)
Definition df_hr : DataFrame :=
  {| columns := [" HR "%string];
     rows := [[Num 100]; [Num 100]; [Num 100]; [Num 100]; [Num 130]]%float |}.

(** Four readings of the oxygen saturation, the last one low. *)
Definition df_spo2 : DataFrame :=
  {| columns := ["SpO2"%string];
     rows := [[Num 98]; [Num 98]; [Num 98]; [Num 95]]%float |}.

(** Several signals, a column that is no signal, a missing value and the
    headers in an order of their own. *)
Definition df_vitals : DataFrame :=
  {| columns := ["dia"; "note"; "SYS "; "oxygen"; "Heart Rate"]%string;
     rows :=
       [ [Num 80; Text "rest"; Num 120; Num 98; Num 70];
         [Num 86; Text "rest"; Num 121; Num 98; Num 72];
         [Num 80; Text "walk"; Num 119; Num nan; Num 71];
         [Num 92; Text "run"; Num 140; Num 94; Num 110];
         [Num 79; Text "rest"; Num 120; Num 97; Num 70] ]%float |}.

(** Two headers that both name the heart rate. *)
Definition df_two_hr : DataFrame :=
  {| columns := ["hr"; "Heart Rate"]%string;
     rows := [[Num 70; Num 71]; [Num 72; Num 73]]%float |}.

(** Heart rates whose quartiles differ by less than 1e-6. *)
Definition df_tight : DataFrame :=
  {| columns := ["hr"%string];
     rows := [[Num 60]; [Num 60]; [Num 60]; [Num 60.0000005]; [Num 61]]%float |}.

(** An oxygen column that holds text only. *)
Definition df_text_column : DataFrame :=
  {| columns := ["hr"; "spo2"]%string;
     rows :=
       [ [Num 70; Text "n/a"]; [Num 71; Text "n/a"]; [Num 95; Text "n/a"] ]%float
  |}.


(** A table without any signal. *)
Definition df_unrelated : DataFrame :=
  {| columns := ["time"; "note"]%string;
     rows := [[Num 1; Text "a"]; [Num 2; Text "b"]]%float |}.

(** ** The pipeline of [upload_csv]

    [parse] is what [pd.to_numeric(errors="coerce")] makes of a text cell
    (NaN when the text is not a number); [median] and [quantile] are the
    pandas reductions on a float column without missing values. *)

Section Pipeline.

Variable parse : string -> float.
Variable median : list float -> float.
Variable quantile : list float -> float -> float.

(** [pd.to_numeric(_, errors="coerce")] on one cell *)
Definition to_numeric (c : cell) : float :=
  match c with
  | Num x => x
  | Text s => parse s
  end.

Definition map_columns (df : DataFrame) : dict string :=
  fold_left
    (fun mapped sv =>
       fold_left
         (fun mapped col =>
            if str_in (lower (strip col)) (snd sv)
            then dict_set mapped (fst sv) col
            else mapped)
         (columns df) mapped)
    COLUMN_MAP [].

(** State of the baseline loop: the table (a column is overwritten at each
    turn) and the two dictionaries. *)
Definition bstate : Type := (DataFrame * dict float * dict float)%type.

(** One turn of [for signal, col in column_mapping.items()] (baselines). *)
Definition baseline_step (st : bstate) (item : signal * string)
  : option bstate :=
  let '(df, baselines, volatility) := st in
  let '(signal, col) := item in
  vals <- get_column df col ;;
  df <- set_column df col (map (fun c => Num (to_numeric c)) vals) ;;
  series <- get_column df col ;;
  let clean_series := dropna series in
  match clean_series with
  | [] => Some (df, baselines, volatility)
  | _ =>
      xs <- mapM as_float clean_series ;;
      let baseline := median xs in
      let q1 := quantile xs 0.25%float in
      let q3 := quantile xs 0.75%float in
      let iqr := (q3 - q1)%float in
      let iqr := if (iqr =? 0)%float then 1e-6%float else iqr in
      Some (df, dict_set baselines signal baseline,
            dict_set volatility signal iqr)
  end.

(** One turn of the inner loop of the detection: [triggered] grows by the
    name of the signal when its condition holds. *)
Definition check_signal (df : DataFrame) (baselines : dict float)
  (row : list cell) (triggered : list string) (item : signal * string)
  : option (list string) :=
  let '(signal, col) := item in
  match dict_get baselines signal with
  | None => Some triggered
  | Some baseline =>
      value <- row_get df row col ;;
      if isna value then Some triggered
      else
        v <- as_float value ;;
        match signal with
        | heart_rate =>
            if (0.15 <? abs (v - baseline) / baseline)%float
            then Some (triggered ++ ["heart_rate"%string])
            else Some triggered
        | spo2 =>
            if (2 <? baseline - v)%float
            then Some (triggered ++ ["spo2"%string])
            else Some triggered
        | systolic_bp =>
            if (10 <? abs (v - baseline))%float
            then Some (triggered ++ ["systolic_bp"%string])
            else Some triggered
        | diastolic_bp =>
            if (5 <? abs (v - baseline))%float
            then Some (triggered ++ ["diastolic_bp"%string])
            else Some triggered
        end
  end.

(** The inner loop: the signals triggered by one row. *)
Definition row_triggered (df : DataFrame) (column_mapping : dict string)
  (baselines : dict float) (row : list cell) : option (list string) :=
  foldM (check_signal df baselines row) column_mapping [].

(** One turn of [for idx, row in df.iterrows()]. *)
Definition detect_step (df : DataFrame) (column_mapping : dict string)
  (baselines : dict float) (deviation_rows : list event)
  (ir : nat * list cell) : option (list event) :=
  triggered <- row_triggered df column_mapping baselines (snd ir) ;;
  match triggered with
  | [] => Some deviation_rows
  | _ =>
      Some (deviation_rows ++
              [{| row := fst ir;
                  signals := String.concat ", " triggered;
                  severity := List.length triggered |}])
  end.

(** [df.iterrows()] on the default index *)
Definition iterrows (df : DataFrame) : list (nat * list cell) :=
  combine (seq 0 (List.length (rows df))) (rows df).

(** The computation of [upload_csv] up to the rendering: the table as the
    baseline loop leaves it, and the tables and counters of the report. *)
Definition run (df : DataFrame) : option (DataFrame * Report) :=
  let column_mapping := map_columns df in
  '(df, baselines, volatility) <-
    foldM baseline_step column_mapping (df, [], []) ;;
  deviation_rows <-
    foldM (detect_step df column_mapping baselines) (iterrows df) [] ;;
  let total_rows := List.length (rows df) in
  let deviation_count := List.length deviation_rows in
  let max_severity := py_max (map severity deviation_rows) 0 in
  let multi_signal :=
    List.length (filter (fun r => 2 <=? severity r) deviation_rows) in
  Some (df,
        {| baselines := baselines;
           volatility := volatility;
           deviation_rows := deviation_rows;
           total_rows := total_rows;
           deviation_count := deviation_count;
           max_severity := max_severity;
           multi_signal := multi_signal |}).

Definition upload_csv (df : DataFrame) : option Report :=
  option_map snd (run df).

(** *** The same computation, read from the input table *)

Definition cellD (r : list cell) (j : nat) : cell := nth j r (Num nan).

(** Column [j] of a row after [pd.to_numeric]. *)
Definition coerce_row (j : nat) (r : list cell) : list cell :=
  set_nth j (Num (to_numeric (cellD r j))) r.

Definition coerce_row_all (js : list nat) (r : list cell) : list cell :=
  fold_left (fun r j => coerce_row j r) js r.

Definition coerce_cols (js : list nat) (df : DataFrame) : DataFrame :=
  {| columns := columns df;
     rows := map (coerce_row_all js) (rows df) |}.

(** Positions of the mapped columns, in the order of the mapping. *)
Definition mapped_locs (df : DataFrame) (m : dict string) : list nat :=
  flat_map (fun item => match get_loc (columns df) (snd item) with
                        | Some j => [j]
                        | None => []
                        end) m.

(** The coerced values of a column, and those that are not missing. *)
Definition numeric_column (df : DataFrame) (col : string) : list float :=
  match get_loc (columns df) col with
  | Some j => map (fun r => to_numeric (cellD r j)) (rows df)
  | None => []
  end.

Definition valid_values (df : DataFrame) (col : string) : list float :=
  filter (fun x => negb (PrimFloat.is_nan x)) (numeric_column df col).

(** The value of signal [s] in row [i]: the coerced cell of its column. *)
Definition signal_value (df : DataFrame) (s : signal) (i : nat)
  : option float :=
  col <- dict_get (map_columns df) s ;;
  c <- cell_at df i col ;;
  Some (to_numeric c).

(** Signal [s] is mapped, has the baseline [b] in [bl], has a value in
    row [i] that is not missing, and meets its trigger condition. *)
Definition satisfied (df : DataFrame) (bl : dict float) (i : nat)
  (s : signal) : bool :=
  match dict_get bl s, signal_value df s i with
  | Some b, Some v => negb (PrimFloat.is_nan v) && trigger_condition s v b
  | _, _ => false
  end.

(** The two dictionaries after one mapped signal. *)
Definition bupdate (df : DataFrame) (bv : dict float * dict float)
  (item : signal * string) : dict float * dict float :=
  match valid_values df (snd item) with
  | [] => bv
  | xs =>
      (dict_set (fst bv) (fst item) (median xs),
       dict_set (snd bv) (fst item)
         (stored_volatility
            (quantile xs 0.75%float - quantile xs 0.25%float)%float))
  end.

(** The same test as [check_signal], on a row of the input table. *)
Definition fires (df : DataFrame) (bl : dict float) (r : list cell)
  (item : signal * string) : bool :=
  match dict_get bl (fst item), get_loc (columns df) (snd item) with
  | Some b, Some j =>
      let v := to_numeric (cellD r j) in
      negb (PrimFloat.is_nan v) && trigger_condition (fst item) v b
  | _, _ => false
  end.

(** The signals that row [i] triggers, in canonical order. *)
Definition triggered_signals (df : DataFrame) (bl : dict float) (i : nat)
  : list signal :=
  filter (satisfied df bl i) all_signals.

(** The events of the table: one per row that triggers something. *)
Definition expected_events (df : DataFrame) (bl : dict float) : list event :=
  flat_map (fun i => event_of i (triggered_signals df bl i))
           (seq 0 (List.length (rows df))).

(** The baselines and volatilities of the table. *)
Definition expected_dicts (df : DataFrame) : dict float * dict float :=
  fold_left (bupdate df) (map_columns df) ([], []).

(** A string of whitespace only. *)
Fixpoint all_space (s : string) : bool :=
  match s with
  | EmptyString => true
  | String c s' => is_space c && all_space s'
  end.

(** *** The tables handed to the renderer

    [round2] is [round(_, 2)] on a float. *)

(** A cell of a table of the report. *)
Inductive tcell : Type :=
| TText (s : string)
| TInt (n : nat)
| TFloat (x : float).

(** [baseline_table_data]: the heading, then one line per key of
    [baselines]; [volatility[signal]] raises on a missing key. *)
Definition baseline_table_data (round2 : float -> float)
  (baselines volatility : dict float) : option (list (list tcell)) :=
  foldM
    (fun data signal =>
       b <- dict_get baselines signal ;;
       v <- dict_get volatility signal ;;
       Some (data ++ [[TText (signal_name signal);
                       TFloat (round2 b);
                       TFloat (round2 v)]]))
    (keys baselines)
    [[TText "Signal"; TText "Median Baseline"; TText "Volatility (IQR)"]].

(** [deviation_table_data]: the heading, then one line per event. *)
Definition deviation_table_data (deviation_rows : list event)
  : list (list tcell) :=
  fold_left
    (fun data r =>
       data ++ [[TInt (row r); TText (signals r); TInt (severity r)]])
    deviation_rows
    [[TText "Row"; TText "Signals Triggered"; TText "Severity"]].

Definition summary_data (total_rows deviation_count max_severity
                           multi_signal : nat) : list (list tcell) :=
  [ [TText "Total Rows"; TInt total_rows];
    [TText "Deviation Rows"; TInt deviation_count];
    [TText "Max Severity"; TInt max_severity];
    [TText "Multi-signal Instability (>=2)"; TInt multi_signal] ].

(** The three tables that [upload_csv] builds for the document, in the
    order in which it lays them out. *)
Definition upload_csv_tables (round2 : float -> float) (df : DataFrame)
  : option (list (list tcell) * list (list tcell) * list (list tcell)) :=
  '(_, rep) <- run df ;;
  baseline_table <-
    baseline_table_data round2 (baselines rep) (volatility rep) ;;
  Some (baseline_table,
        deviation_table_data (deviation_rows rep),
        summary_data (total_rows rep) (deviation_count rep)
                     (max_severity rep) (multi_signal rep)).

(** ** Signals and dictionaries *)

Lemma signal_eqb_eq (a b : signal) : signal_eqb a b = true <-> a = b.
Proof. destruct a, b; simpl; split; intros H; congruence. Qed.

Lemma signal_eqb_refl (a : signal) : signal_eqb a a = true.
Proof. destruct a; reflexivity. Qed.

Lemma signal_eqb_neq (a b : signal) : signal_eqb a b = false <-> a <> b.
Proof.
  destruct (signal_eqb a b) eqn:E.
  - apply signal_eqb_eq in E. split; [discriminate | congruence].
  - split; [| reflexivity]. intros _ H. subst. rewrite signal_eqb_refl in E.
    discriminate.
Qed.

Lemma signal_name_inj (a b : signal) : signal_name a = signal_name b -> a = b.
Proof. destruct a, b; simpl; intros H; try reflexivity; discriminate. Qed.

Lemma all_signals_complete (s : signal) : In s all_signals.
Proof. destruct s; simpl; auto. Qed.

Lemma all_signals_NoDup : NoDup all_signals.
Proof.
  unfold all_signals.
  repeat constructor; simpl; intros H;
    repeat (destruct H as [H | H]; [discriminate |]); exact H.
Qed.

Lemma dict_get_set {V : Type} (d : dict V) (k k' : signal) (v : V) :
  dict_get (dict_set d k v) k' =
  if signal_eqb k k' then Some v else dict_get d k'.
Proof.
  induction d as [| [k0 v0] d IH]; simpl.
  - reflexivity.
  - destruct (signal_eqb k0 k) eqn:E; simpl.
    + apply signal_eqb_eq in E. subst k0.
      destruct (signal_eqb k k'); reflexivity.
    + destruct (signal_eqb k0 k') eqn:E'.
      * apply signal_eqb_eq in E'. subst k0.
        destruct (signal_eqb k k') eqn:E2; [| reflexivity].
        apply signal_eqb_eq in E2. subst. rewrite signal_eqb_refl in E.
        discriminate.
      * exact IH.
Qed.

Lemma dict_set_set {V : Type} (d : dict V) (k : signal) (a b : V) :
  dict_set (dict_set d k a) k b = dict_set d k b.
Proof.
  induction d as [| [k0 v0] d IH]; simpl.
  - rewrite signal_eqb_refl. reflexivity.
  - destruct (signal_eqb k0 k) eqn:E; simpl; rewrite E.
    + reflexivity.
    + rewrite IH. reflexivity.
Qed.

Lemma dict_get_In {V : Type} (d : dict V) (k : signal) (v : V) :
  dict_get d k = Some v -> In (k, v) d.
Proof.
  induction d as [| [k0 v0] d IH]; simpl; intros H.
  - discriminate.
  - destruct (signal_eqb k0 k) eqn:E.
    + apply signal_eqb_eq in E. left. congruence.
    + right. auto.
Qed.

Lemma dict_get_None_keys {V : Type} (d : dict V) (k : signal) :
  dict_get d k = None <-> ~ In k (keys d).
Proof.
  induction d as [| [k0 v0] d IH]; simpl.
  - tauto.
  - destruct (signal_eqb k0 k) eqn:E.
    + apply signal_eqb_eq in E. split; [discriminate | tauto].
    + apply signal_eqb_neq in E. tauto.
Qed.

Lemma In_dict_get {V : Type} (d : dict V) (k : signal) (v : V) :
  NoDup (keys d) -> In (k, v) d -> dict_get d k = Some v.
Proof.
  induction d as [| [k0 v0] d IH]; simpl; intros Hnd Hin.
  - contradiction.
  - inversion Hnd as [| ? ? Hnotin Hnd']; subst.
    destruct Hin as [Heq | Hin].
    + inversion Heq; subst. rewrite signal_eqb_refl. reflexivity.
    + destruct (signal_eqb k0 k) eqn:E.
      * apply signal_eqb_eq in E. subst k0. exfalso. apply Hnotin.
        unfold keys. apply (in_map fst) in Hin. exact Hin.
      * auto.
Qed.

(** ** The column mapping *)

Lemma find_app {A : Type} (p : A -> bool) (l1 l2 : list A) :
  find p (l1 ++ l2) =
  match find p l1 with
  | Some x => Some x
  | None => find p l2
  end.
Proof.
  induction l1 as [| a l1 IH]; simpl; [reflexivity |].
  destruct (p a); [reflexivity | exact IH].
Qed.

(** The inner loop of [map_columns] keeps the last header that matches. *)
Lemma inner_loop_last (p : string -> bool) (s : signal) (cols : list string)
  (mapped : dict string) :
  fold_left (fun m col => if p col then dict_set m s col else m) cols mapped =
  match find p (rev cols) with
  | Some c => dict_set mapped s c
  | None => mapped
  end.
Proof.
  revert mapped. induction cols as [| c cols IH]; intros mapped; simpl.
  - reflexivity.
  - rewrite IH, find_app. destruct (find p (rev cols)) as [x |]; simpl.
    + destruct (p c); [apply dict_set_set | reflexivity].
    + destruct (p c); reflexivity.
Qed.

Lemma outer_loop_last (cols : list string) (table : list (signal * list string))
  (mapped : dict string) :
  fold_left
    (fun mapped sv =>
       fold_left
         (fun mapped col =>
            if str_in (lower (strip col)) (snd sv)
            then dict_set mapped (fst sv) col
            else mapped)
         cols mapped)
    table mapped =
  fold_left
    (fun mapped sv =>
       match find (fun col => str_in (lower (strip col)) (snd sv)) (rev cols)
       with
       | Some c => dict_set mapped (fst sv) c
       | None => mapped
       end)
    table mapped.
Proof.
  revert mapped. induction table as [| sv table IH]; intros mapped; simpl.
  - reflexivity.
  - rewrite inner_loop_last. apply IH.
Qed.

Lemma map_columns_closed (df : DataFrame) :
  map_columns df =
  flat_map (fun s => match last_match s (columns df) with
                     | Some c => [(s, c)]
                     | None => []
                     end) all_signals.
Proof.
  unfold map_columns. rewrite outer_loop_last.
  unfold COLUMN_MAP, all_signals, last_match, header_matches, aliases,
    COLUMN_MAP.
  cbn [fold_left flat_map fst snd find signal_eqb app].
  destruct (find _ (rev (columns df)));
    destruct (find _ (rev (columns df)));
    destruct (find _ (rev (columns df)));
    destruct (find _ (rev (columns df)));
    reflexivity.
Qed.

Lemma map_columns_get (df : DataFrame) (s : signal) :
  dict_get (map_columns df) s = last_match s (columns df).
Proof.
  rewrite map_columns_closed. unfold all_signals. simpl flat_map.
  destruct (last_match heart_rate (columns df)) eqn:E1;
    destruct (last_match spo2 (columns df)) eqn:E2;
    destruct (last_match systolic_bp (columns df)) eqn:E3;
    destruct (last_match diastolic_bp (columns df)) eqn:E4;
    destruct s; simpl; congruence.
Qed.

Lemma map_columns_keys (df : DataFrame) :
  keys (map_columns df) =
  filter (fun s => dict_mem (map_columns df) s) all_signals.
Proof.
  unfold dict_mem, all_signals. simpl filter. rewrite !map_columns_get.
  rewrite map_columns_closed. unfold all_signals. simpl flat_map.
  destruct (last_match heart_rate (columns df));
    destruct (last_match spo2 (columns df));
    destruct (last_match systolic_bp (columns df));
    destruct (last_match diastolic_bp (columns df)); reflexivity.
Qed.

Lemma map_columns_NoDup (df : DataFrame) : NoDup (keys (map_columns df)).
Proof.
  rewrite map_columns_keys. apply NoDup_filter, all_signals_NoDup.
Qed.

Lemma map_columns_In_columns (df : DataFrame) (s : signal) (col : string) :
  In (s, col) (map_columns df) -> In col (columns df).
Proof.
  intros H. apply In_dict_get in H; [| apply map_columns_NoDup].
  rewrite map_columns_get in H. unfold last_match in H.
  apply find_some in H. destruct H as [H _]. apply in_rev. exact H.
Qed.

(** ** Tables: labels, rows and coercion *)

Lemma get_loc_In (cols : list string) (col : string) :
  In col cols -> exists j, get_loc cols col = Some j.
Proof.
  induction cols as [| c cols IH]; simpl; intros H.
  - contradiction.
  - destruct (String.eqb c col) eqn:E.
    + exists 0. reflexivity.
    + destruct H as [H | H].
      * subst. rewrite String.eqb_refl in E. discriminate.
      * destruct (IH H) as [j Hj]. exists (S j). rewrite Hj. reflexivity.
Qed.

Lemma get_loc_lt (cols : list string) (col : string) (j : nat) :
  get_loc cols col = Some j -> j < List.length cols.
Proof.
  revert j. induction cols as [| c cols IH]; simpl; intros j H.
  - discriminate.
  - destruct (String.eqb c col).
    + inversion H. lia.
    + destruct (get_loc cols col) as [j' |]; simpl in H; [| discriminate].
      inversion H. specialize (IH j' eq_refl). lia.
Qed.

Lemma wf_row (df : DataFrame) (r : list cell) :
  wf_df df = true -> In r (rows df) ->
  List.length r = List.length (columns df).
Proof.
  unfold wf_df. rewrite forallb_forall. intros H Hin.
  apply Nat.eqb_eq. apply H. exact Hin.
Qed.

Lemma nth_error_cellD (r : list cell) (j : nat) :
  j < List.length r -> nth_error r j = Some (cellD r j).
Proof. intros H. unfold cellD. apply nth_error_nth'. exact H. Qed.

Lemma mapM_total {A B : Type} (f : A -> option B) (g : A -> B) (l : list A) :
  (forall a, In a l -> f a = Some (g a)) -> mapM f l = Some (map g l).
Proof.
  induction l as [| a l IH]; simpl; intros H.
  - reflexivity.
  - rewrite (H a) by auto. simpl. rewrite IH by auto. reflexivity.
Qed.

Lemma get_column_wf (df : DataFrame) (col : string) (j : nat) :
  wf_df df = true -> get_loc (columns df) col = Some j ->
  get_column df col = Some (map (fun r => cellD r j) (rows df)).
Proof.
  intros Hwf Hj. unfold get_column. rewrite Hj. simpl.
  apply mapM_total. intros r Hr. apply nth_error_cellD.
  rewrite (wf_row df r Hwf Hr). eapply get_loc_lt. exact Hj.
Qed.

Lemma length_set_nth {A : Type} (j : nat) (v : A) (l : list A) :
  List.length (set_nth j v l) = List.length l.
Proof.
  revert j. induction l as [| x l IH]; intros [| j]; simpl; auto.
Qed.

Lemma nth_set_nth {A : Type} (j k : nat) (v d : A) (l : list A) :
  nth k (set_nth j v l) d =
  if (k =? j) && (j <? List.length l) then v else nth k l d.
Proof.
  revert j k. induction l as [| x l IH]; intros j k.
  - destruct j, k; simpl; rewrite ?andb_false_r; reflexivity.
  - destruct j as [| j], k as [| k]; simpl; try reflexivity.
    rewrite IH. reflexivity.
Qed.

Lemma combine_map_self {A B C : Type} (F : A -> B -> C) (g : A -> B)
  (l : list A) :
  map (fun rv => F (fst rv) (snd rv)) (combine l (map g l)) =
  map (fun r => F r (g r)) l.
Proof.
  induction l as [| a l IH]; simpl; [reflexivity |]. rewrite IH. reflexivity.
Qed.

Lemma length_coerce_row (j : nat) (r : list cell) :
  List.length (coerce_row j r) = List.length r.
Proof. apply length_set_nth. Qed.

Lemma cellD_coerce_row (j k : nat) (r : list cell) :
  cellD (coerce_row j r) k =
  if (k =? j) && (j <? List.length r) then Num (to_numeric (cellD r j))
  else cellD r k.
Proof. unfold coerce_row, cellD at 1. apply nth_set_nth. Qed.

Lemma to_numeric_coerce_row (j k : nat) (r : list cell) :
  to_numeric (cellD (coerce_row j r) k) = to_numeric (cellD r k).
Proof.
  rewrite cellD_coerce_row.
  destruct (k =? j) eqn:E; simpl; [| reflexivity].
  apply Nat.eqb_eq in E. subst k.
  destruct (j <? List.length r); reflexivity.
Qed.

Lemma length_coerce_row_all (js : list nat) (r : list cell) :
  List.length (coerce_row_all js r) = List.length r.
Proof.
  unfold coerce_row_all. revert r.
  induction js as [| j js IH]; intros r; simpl; [reflexivity |].
  rewrite IH. apply length_coerce_row.
Qed.

Lemma to_numeric_coerce_row_all (js : list nat) (k : nat) (r : list cell) :
  to_numeric (cellD (coerce_row_all js r) k) = to_numeric (cellD r k).
Proof.
  unfold coerce_row_all. revert r.
  induction js as [| j js IH]; intros r; simpl; [reflexivity |].
  rewrite IH. apply to_numeric_coerce_row.
Qed.

(** A cell that is already a number is left as it is. *)
Lemma coerce_row_all_Num (js : list nat) (k : nat) (r : list cell) (x : float) :
  cellD r k = Num x -> cellD (coerce_row_all js r) k = Num x.
Proof.
  unfold coerce_row_all. revert r.
  induction js as [| j js IH]; intros r H; simpl; [exact H |].
  apply IH. rewrite cellD_coerce_row.
  destruct (k =? j) eqn:E; simpl; [| exact H].
  apply Nat.eqb_eq in E. subst k.
  destruct (j <? List.length r); [| exact H]. rewrite H. reflexivity.
Qed.

(** A coerced column holds the coerced cells of the input. *)
Lemma coerce_row_all_In (js : list nat) (k : nat) (r : list cell) :
  In k js -> k < List.length r ->
  cellD (coerce_row_all js r) k = Num (to_numeric (cellD r k)).
Proof.
  revert r. induction js as [| j js IH]; intros r Hin Hlt.
  - contradiction.
  - change (coerce_row_all (j :: js) r)
      with (coerce_row_all js (coerce_row j r)).
    destruct (Nat.eq_dec j k) as [-> | Hne].
    + apply coerce_row_all_Num. rewrite cellD_coerce_row.
      rewrite Nat.eqb_refl. apply Nat.ltb_lt in Hlt. rewrite Hlt. reflexivity.
    + destruct Hin as [Heq | Hin]; [contradiction |].
      rewrite IH; [| exact Hin | rewrite length_coerce_row; exact Hlt].
      rewrite to_numeric_coerce_row. reflexivity.
Qed.

Lemma coerce_cols_cons (j : nat) (js : list nat) (df : DataFrame) :
  coerce_cols js (coerce_cols [j] df) = coerce_cols (j :: js) df.
Proof.
  unfold coerce_cols. simpl. rewrite map_map. reflexivity.
Qed.

Lemma coerce_cols_nil (df : DataFrame) : coerce_cols [] df = df.
Proof.
  unfold coerce_cols, coerce_row_all. simpl. rewrite map_id.
  destruct df; reflexivity.
Qed.

Lemma wf_coerce_cols (js : list nat) (df : DataFrame) :
  wf_df (coerce_cols js df) = wf_df df.
Proof.
  unfold wf_df, coerce_cols. cbn [rows columns].
  induction (rows df) as [| r l IH]; simpl; [reflexivity |].
  rewrite length_coerce_row_all, IH. reflexivity.
Qed.

Lemma numeric_column_coerce_cols (js : list nat) (df : DataFrame)
  (col : string) :
  numeric_column (coerce_cols js df) col = numeric_column df col.
Proof.
  unfold numeric_column. simpl.
  destruct (get_loc (columns df) col) as [j |]; [| reflexivity].
  rewrite map_map. apply map_ext. intros r.
  apply to_numeric_coerce_row_all.
Qed.

Lemma set_column_coerce (df : DataFrame) (col : string) (j : nat) :
  get_loc (columns df) col = Some j ->
  set_column df col
    (map (fun c => Num (to_numeric c)) (map (fun r => cellD r j) (rows df)))
  = Some (coerce_cols [j] df).
Proof.
  intros Hj. unfold set_column. rewrite Hj. simpl. f_equal.
  unfold coerce_cols. f_equal. rewrite map_map.
  rewrite (combine_map_self (fun r v => set_nth j v r)
             (fun r => Num (to_numeric (cellD r j)))).
  reflexivity.
Qed.

Lemma dropna_map_Num (l : list float) :
  dropna (map Num l) =
  map Num (filter (fun x => negb (PrimFloat.is_nan x)) l).
Proof.
  unfold dropna. induction l as [| x l IH]; simpl; [reflexivity |].
  destruct (PrimFloat.is_nan x); simpl; rewrite IH; reflexivity.
Qed.

Lemma mapM_as_float_Num (l : list float) :
  mapM as_float (map Num l) = Some l.
Proof.
  induction l as [| x l IH]; simpl; [reflexivity |].
  rewrite IH. reflexivity.
Qed.

(** ** The baseline loop *)

Lemma baseline_step_closed (df : DataFrame) (bl vl : dict float)
  (s : signal) (col : string) (j : nat) :
  wf_df df = true -> get_loc (columns df) col = Some j ->
  baseline_step (df, bl, vl) (s, col) =
  Some (coerce_cols [j] df,
        fst (bupdate df (bl, vl) (s, col)),
        snd (bupdate df (bl, vl) (s, col))).
Proof.
  intros Hwf Hj. unfold baseline_step.
  rewrite (get_column_wf df col j Hwf Hj). cbn [bind].
  rewrite (set_column_coerce df col j Hj). cbn [bind].
  rewrite (get_column_wf (coerce_cols [j] df) col j);
    [| rewrite wf_coerce_cols; exact Hwf | exact Hj].
  cbn [bind].
  assert (E : map (fun r => cellD r j) (rows (coerce_cols [j] df)) =
              map Num (numeric_column df col)).
  { unfold numeric_column. rewrite Hj. unfold coerce_cols. cbn [rows].
    rewrite !map_map. apply map_ext_in. intros r Hr.
    apply coerce_row_all_In; [left; reflexivity |].
    rewrite (wf_row df r Hwf Hr). eapply get_loc_lt. exact Hj. }
  rewrite E, dropna_map_Num.
  unfold bupdate. cbn [fst snd]. unfold valid_values.
  destruct (filter (fun x => negb (PrimFloat.is_nan x))
              (numeric_column df col)) as [| x xs] eqn:Ev.
  - reflexivity.
  - cbn [map]. change (Num x :: map Num xs) with (map Num (x :: xs)).
    rewrite mapM_as_float_Num. reflexivity.
Qed.

Lemma bupdate_ext (df df0 : DataFrame) (bv : dict float * dict float)
  (item : signal * string) :
  (forall col, numeric_column df col = numeric_column df0 col) ->
  bupdate df bv item = bupdate df0 bv item.
Proof.
  intros H. unfold bupdate, valid_values. rewrite H. reflexivity.
Qed.

Lemma baseline_loop_closed (df0 : DataFrame) (items : dict string) :
  forall (df : DataFrame) (bl vl : dict float),
    wf_df df = true ->
    columns df = columns df0 ->
    (forall col, numeric_column df col = numeric_column df0 col) ->
    (forall item, In item items -> In (snd item) (columns df0)) ->
    foldM baseline_step items (df, bl, vl) =
    Some (coerce_cols (mapped_locs df0 items) df,
          fst (fold_left (bupdate df0) items (bl, vl)),
          snd (fold_left (bupdate df0) items (bl, vl))).
Proof.
  induction items as [| [s col] items IH]; intros df bl vl Hwf Hcols Hnum Hin.
  - simpl. rewrite coerce_cols_nil. reflexivity.
  - destruct (get_loc_In (columns df0) col) as [j Hj].
    { apply (Hin (s, col)). left. reflexivity. }
    cbn [foldM].
    rewrite (baseline_step_closed df bl vl s col j Hwf);
      [| rewrite Hcols; exact Hj].
    cbn [bind]. rewrite (bupdate_ext df df0 _ _ Hnum).
    rewrite IH.
    + rewrite coerce_cols_cons. unfold mapped_locs at 2. cbn [flat_map snd].
      rewrite Hj. cbn [app fold_left].
      destruct (bupdate df0 (bl, vl) (s, col)) as [bl' vl']. reflexivity.
    + rewrite wf_coerce_cols. exact Hwf.
    + exact Hcols.
    + intros c. rewrite numeric_column_coerce_cols. apply Hnum.
    + intros item Hitem. apply Hin. right. exact Hitem.
Qed.

(** ** The detection loop *)

Lemma mapped_locs_In (df : DataFrame) (m : dict string)
  (item : signal * string) (j : nat) :
  In item m -> get_loc (columns df) (snd item) = Some j ->
  In j (mapped_locs df m).
Proof.
  intros Hin Hj. unfold mapped_locs. apply in_flat_map.
  exists item. split; [exact Hin |]. rewrite Hj. left. reflexivity.
Qed.

Lemma check_signal_closed (df0 : DataFrame) (js : list nat) (bl : dict float)
  (r0 : list cell) (t : list string) (s : signal) (col : string) (j : nat) :
  List.length r0 = List.length (columns df0) ->
  get_loc (columns df0) col = Some j ->
  In j js ->
  check_signal (coerce_cols js df0) bl (coerce_row_all js r0) t (s, col) =
  Some (t ++ if fires df0 bl r0 (s, col) then [signal_name s] else []).
Proof.
  intros Hlen Hj Hjs. unfold check_signal, fires. cbn [fst snd].
  destruct (dict_get bl s) as [b |]; [| rewrite app_nil_r; reflexivity].
  unfold row_get. cbn [columns coerce_cols]. rewrite Hj. cbn [bind].
  assert (Hlt : j < List.length r0).
  { rewrite Hlen. eapply get_loc_lt. exact Hj. }
  rewrite nth_error_cellD by (rewrite length_coerce_row_all; exact Hlt).
  rewrite (coerce_row_all_In js j r0 Hjs Hlt). cbn [bind isna].
  destruct (PrimFloat.is_nan (to_numeric (cellD r0 j))); cbn [negb andb].
  - rewrite app_nil_r. reflexivity.
  - cbn [as_float bind].
    destruct s; cbn [trigger_condition signal_name];
      match goal with
      | |- context [if ?c then _ else _] => destruct c
      end; rewrite ?app_nil_r; reflexivity.
Qed.

Lemma row_triggered_loop (df0 : DataFrame) (js : list nat) (bl : dict float)
  (r0 : list cell) (items : dict string) :
  List.length r0 = List.length (columns df0) ->
  (forall item, In item items ->
     exists j, get_loc (columns df0) (snd item) = Some j /\ In j js) ->
  forall t,
    foldM (check_signal (coerce_cols js df0) bl (coerce_row_all js r0))
          items t =
    Some (t ++ map (fun item => signal_name (fst item))
                   (filter (fires df0 bl r0) items)).
Proof.
  intros Hlen. induction items as [| [s col] items IH]; intros Hin t.
  - simpl. rewrite app_nil_r. reflexivity.
  - destruct (Hin (s, col)) as [j [Hj Hjs]]; [left; reflexivity |].
    cbn [foldM].
    rewrite (check_signal_closed df0 js bl r0 t s col j Hlen Hj Hjs).
    cbn [bind]. rewrite IH by (intros item Hitem; apply Hin; right; exact Hitem).
    cbn [filter]. destruct (fires df0 bl r0 (s, col)).
    + cbn [map fst]. rewrite <- app_assoc. reflexivity.
    + rewrite app_nil_r. reflexivity.
Qed.

(** The signals of the mapping that fire on a row of the input table. *)
Lemma fired_signals_satisfied (df : DataFrame) (bl : dict float) (i : nat)
  (r0 : list cell) :
  wf_df df = true -> nth_error (rows df) i = Some r0 ->
  map fst (filter (fires df bl r0) (map_columns df)) =
  triggered_signals df bl i.
Proof.
  intros Hwf Hr0. unfold triggered_signals.
  assert (Hsat : forall s, satisfied df bl i s =
            match last_match s (columns df) with
            | Some c => fires df bl r0 (s, c)
            | None => false
            end).
  { intros s. unfold satisfied, signal_value, fires. cbn [fst snd].
    rewrite map_columns_get.
    destruct (last_match s (columns df)) as [c |] eqn:Ec; cbn [bind].
    - assert (Hc : In c (columns df)).
      { unfold last_match in Ec. apply find_some in Ec.
        apply in_rev. tauto. }
      destruct (get_loc_In _ _ Hc) as [j Hj].
      unfold cell_at. rewrite Hj, Hr0. cbn [bind].
      rewrite nth_error_cellD.
      + cbn [bind]. reflexivity.
      + rewrite (wf_row df r0 Hwf).
        * eapply get_loc_lt. exact Hj.
        * eapply nth_error_In. exact Hr0.
    - destruct (dict_get bl s); reflexivity. }
  rewrite map_columns_closed.
  induction all_signals as [| s l IH]; cbn [flat_map filter map].
  - reflexivity.
  - rewrite filter_app, map_app, IH, Hsat.
    destruct (last_match s (columns df)) as [c |]; cbn [filter].
    + destruct (fires df bl r0 (s, c)); reflexivity.
    + reflexivity.
Qed.

Lemma row_triggered_closed (df : DataFrame) (bl : dict float) (i : nat)
  (r0 : list cell) :
  wf_df df = true -> nth_error (rows df) i = Some r0 ->
  row_triggered (coerce_cols (mapped_locs df (map_columns df)) df)
    (map_columns df) bl
    (coerce_row_all (mapped_locs df (map_columns df)) r0) =
  Some (map signal_name (triggered_signals df bl i)).
Proof.
  intros Hwf Hr0. unfold row_triggered.
  rewrite row_triggered_loop.
  - cbn [app]. rewrite <- (map_map fst signal_name).
    rewrite (fired_signals_satisfied df bl i r0 Hwf Hr0). reflexivity.
  - apply (wf_row df r0 Hwf). eapply nth_error_In. exact Hr0.
  - intros item Hitem.
    destruct (get_loc_In (columns df) (snd item)) as [j Hj].
    { destruct item as [s c]. eapply map_columns_In_columns. exact Hitem. }
    exists j. split; [exact Hj |].
    eapply mapped_locs_In; [exact Hitem | exact Hj].
Qed.

Lemma detect_step_closed (df : DataFrame) (bl : dict float) (i : nat)
  (r0 : list cell) (acc : list event) :
  wf_df df = true -> nth_error (rows df) i = Some r0 ->
  detect_step (coerce_cols (mapped_locs df (map_columns df)) df)
    (map_columns df) bl acc
    (i, coerce_row_all (mapped_locs df (map_columns df)) r0) =
  Some (acc ++ event_of i (triggered_signals df bl i)).
Proof.
  intros Hwf Hr0. unfold detect_step. cbn [fst snd].
  rewrite (row_triggered_closed df bl i r0 Hwf Hr0). cbn [bind].
  destruct (triggered_signals df bl i) as [| s t];
    cbn [map event_of List.length].
  - rewrite app_nil_r. reflexivity.
  - rewrite length_map. reflexivity.
Qed.

Lemma detect_loop_closed (df : DataFrame) (bl : dict float) :
  wf_df df = true ->
  forall (l : list (list cell)) (a : nat) (acc : list event),
    (forall k r, nth_error l k = Some r ->
                 nth_error (rows df) (a + k) = Some r) ->
    foldM (detect_step (coerce_cols (mapped_locs df (map_columns df)) df)
             (map_columns df) bl)
          (combine (seq a (List.length l))
             (map (coerce_row_all (mapped_locs df (map_columns df))) l))
          acc =
    Some (acc ++ flat_map (fun i => event_of i (triggered_signals df bl i))
                          (seq a (List.length l))).
Proof.
  intros Hwf. induction l as [| r l IH]; intros a acc Hnth.
  - simpl. rewrite app_nil_r. reflexivity.
  - cbn [List.length seq map combine foldM flat_map].
    rewrite (detect_step_closed df bl a r acc Hwf).
    + cbn [bind]. rewrite IH.
      * rewrite <- app_assoc. reflexivity.
      * intros k r' Hk. replace (S a + k) with (a + S k) by lia.
        apply Hnth. exact Hk.
    + replace a with (a + 0) by lia. apply Hnth. reflexivity.
Qed.

(** ** The whole computation on a rectangular table *)

Lemma run_closed (df : DataFrame) :
  wf_df df = true ->
  run df =
  Some (coerce_cols (mapped_locs df (map_columns df)) df,
        let bl := fst (expected_dicts df) in
        let evs := expected_events df bl in
        {| baselines := bl;
           volatility := snd (expected_dicts df);
           deviation_rows := evs;
           total_rows := List.length (rows df);
           deviation_count := List.length evs;
           max_severity := py_max (map severity evs) 0;
           multi_signal :=
             List.length (filter (fun r => 2 <=? severity r) evs) |}).
Proof.
  intros Hwf. unfold run.
  change (foldM baseline_step (map_columns df) (df, [], []))
    with (foldM baseline_step (map_columns df)
            (df, ([] : dict float), ([] : dict float))).
  rewrite (baseline_loop_closed df (map_columns df) df [] [] Hwf eq_refl).
  - cbn [bind]. unfold iterrows. cbn [rows columns coerce_cols].
    rewrite length_map.
    rewrite (detect_loop_closed df _ Hwf (rows df) 0 []).
    + cbn [bind app]. unfold expected_events, expected_dicts.
      reflexivity.
    + intros k r Hk. exact Hk.
  - reflexivity.
  - intros [s c] Hitem. eapply map_columns_In_columns. exact Hitem.
Qed.

(** ** What the two dictionaries hold *)

Lemma keys_dict_set {V W : Type} (d1 : dict V) (d2 : dict W) (k : signal)
  (v : V) (w : W) :
  keys d1 = keys d2 -> keys (dict_set d1 k v) = keys (dict_set d2 k w).
Proof.
  revert d2. induction d1 as [| [k1 v1] d1 IH]; intros [| [k2 v2] d2];
    simpl; intros H; try discriminate.
  - reflexivity.
  - inversion H; subst. destruct (signal_eqb k2 k); simpl.
    + congruence.
    + f_equal. apply IH. assumption.
Qed.

Lemma bupdate_keys (df : DataFrame) (bv : dict float * dict float)
  (item : signal * string) :
  keys (fst bv) = keys (snd bv) ->
  keys (fst (bupdate df bv item)) = keys (snd (bupdate df bv item)).
Proof.
  intros H. unfold bupdate.
  destruct (valid_values df (snd item)); [exact H |].
  cbn [fst snd]. apply keys_dict_set. exact H.
Qed.

Lemma bupdate_loop_keys (df : DataFrame) (items : dict string) :
  forall bv, keys (fst bv) = keys (snd bv) ->
    keys (fst (fold_left (bupdate df) items bv)) =
    keys (snd (fold_left (bupdate df) items bv)).
Proof.
  induction items as [| item items IH]; intros bv H; simpl.
  - exact H.
  - apply IH. apply bupdate_keys. exact H.
Qed.

Lemma bupdate_loop_get (df : DataFrame) (items : dict string) (s : signal) :
  NoDup (keys items) ->
  forall bv,
    dict_get (fst (fold_left (bupdate df) items bv)) s =
    match dict_get items s with
    | Some col =>
        match valid_values df col with
        | [] => dict_get (fst bv) s
        | xs => Some (median xs)
        end
    | None => dict_get (fst bv) s
    end
    /\
    dict_get (snd (fold_left (bupdate df) items bv)) s =
    match dict_get items s with
    | Some col =>
        match valid_values df col with
        | [] => dict_get (snd bv) s
        | xs => Some (stored_volatility
                        (quantile xs 0.75%float - quantile xs 0.25%float)%float)
        end
    | None => dict_get (snd bv) s
    end.
Proof.
  induction items as [| [s0 c0] items IH]; intros Hnd bv.
  - simpl. split; reflexivity.
  - inversion Hnd as [| ? ? Hnotin Hnd']; subst.
    cbn [fold_left dict_get].
    destruct (IH Hnd' (bupdate df bv (s0, c0))) as [IH1 IH2].
    rewrite IH1, IH2. clear IH1 IH2 IH.
    destruct (signal_eqb s0 s) eqn:E.
    + apply signal_eqb_eq in E. subst s0.
      apply dict_get_None_keys in Hnotin. rewrite Hnotin.
      unfold bupdate. cbn [fst snd].
      destruct (valid_values df c0); [split; reflexivity |].
      cbn [fst snd]. rewrite !dict_get_set, signal_eqb_refl.
      split; reflexivity.
    + assert (E1 : dict_get (fst (bupdate df bv (s0, c0))) s
                   = dict_get (fst bv) s).
      { unfold bupdate. cbn [fst snd].
        destruct (valid_values df c0); [reflexivity |].
        cbn [fst]. rewrite dict_get_set, E. reflexivity. }
      assert (E2 : dict_get (snd (bupdate df bv (s0, c0))) s
                   = dict_get (snd bv) s).
      { unfold bupdate. cbn [fst snd].
        destruct (valid_values df c0); [reflexivity |].
        cbn [snd]. rewrite dict_get_set, E. reflexivity. }
      rewrite E1, E2.
      destruct (dict_get items s) as [col |]; [| split; reflexivity].
      destruct (valid_values df col); split; reflexivity.
Qed.

Lemma expected_baseline_get (df : DataFrame) (s : signal) :
  dict_get (fst (expected_dicts df)) s =
  match dict_get (map_columns df) s with
  | Some col =>
      match valid_values df col with
      | [] => None
      | xs => Some (median xs)
      end
  | None => None
  end.
Proof.
  unfold expected_dicts.
  destruct (bupdate_loop_get df (map_columns df) s (map_columns_NoDup df)
              ([], [])) as [H _].
  rewrite H. cbn [fst dict_get].
  destruct (dict_get (map_columns df) s) as [col |]; [| reflexivity].
  destruct (valid_values df col); reflexivity.
Qed.

Lemma expected_volatility_get (df : DataFrame) (s : signal) :
  dict_get (snd (expected_dicts df)) s =
  match dict_get (map_columns df) s with
  | Some col =>
      match valid_values df col with
      | [] => None
      | xs => Some (stored_volatility
                      (quantile xs 0.75%float - quantile xs 0.25%float)%float)
      end
  | None => None
  end.
Proof.
  unfold expected_dicts.
  destruct (bupdate_loop_get df (map_columns df) s (map_columns_NoDup df)
              ([], [])) as [_ H].
  rewrite H. cbn [snd dict_get].
  destruct (dict_get (map_columns df) s) as [col |]; [| reflexivity].
  destruct (valid_values df col); reflexivity.
Qed.

Lemma stored_volatility_nonzero (iqr : float) :
  (stored_volatility iqr =? 0)%float = false.
Proof.
  unfold stored_volatility.
  destruct (iqr =? 0)%float eqn:E; [vm_compute; reflexivity | exact E].
Qed.

(** ** Events *)

Lemma In_expected_events (df : DataFrame) (bl : dict float) (ev : event) :
  In ev (expected_events df bl) <->
  exists i, i < List.length (rows df) /\
            In ev (event_of i (triggered_signals df bl i)).
Proof.
  unfold expected_events. rewrite in_flat_map. split.
  - intros [i [Hi Hev]]. exists i. split; [| exact Hev].
    apply in_seq in Hi. lia.
  - intros [i [Hi Hev]]. exists i. split; [| exact Hev].
    apply in_seq. lia.
Qed.

Lemma In_event_of (i : nat) (t : list signal) (ev : event) :
  In ev (event_of i t) <->
  t <> [] /\
  ev = {| row := i;
          signals := String.concat ", " (map signal_name t);
          severity := List.length t |}.
Proof.
  destruct t as [| s t]; simpl.
  - split; [contradiction | intros [H _]; apply H; reflexivity].
  - split.
    + intros [H | []]. split; [discriminate | congruence].
    + intros [_ H]. left. congruence.
Qed.

Lemma In_triggered_signals (df : DataFrame) (bl : dict float) (i : nat)
  (s : signal) :
  In s (triggered_signals df bl i) <-> satisfied df bl i s = true.
Proof.
  unfold triggered_signals. rewrite filter_In.
  split; [tauto | intros H; split; [apply all_signals_complete | exact H]].
Qed.

Lemma satisfied_iff (df : DataFrame) (bl : dict float) (i : nat) (s : signal) :
  satisfied df bl i s = true <->
  exists col b c,
    dict_get (map_columns df) s = Some col /\
    dict_get bl s = Some b /\
    cell_at df i col = Some c /\
    PrimFloat.is_nan (to_numeric c) = false /\
    trigger_condition s (to_numeric c) b = true.
Proof.
  unfold satisfied, signal_value. split.
  - destruct (dict_get bl s) as [b |] eqn:Eb; [| discriminate].
    destruct (dict_get (map_columns df) s) as [col |] eqn:Ec;
      [| discriminate].
    cbn [bind]. destruct (cell_at df i col) as [c |] eqn:Ecell;
      [| discriminate].
    cbn [bind]. intros H. apply andb_true_iff in H. destruct H as [H1 H2].
    exists col, b, c. apply negb_true_iff in H1.
    repeat split; assumption || reflexivity.
  - intros [col [b [c [H1 [H2 [H3 [H4 H5]]]]]]].
    rewrite H2, H1. cbn [bind]. rewrite H3. cbn [bind].
    rewrite H4, H5. reflexivity.
Qed.

(** ** Running again on the table the first run leaves behind *)

Lemma cellD_coerce_row_all_notin (js : list nat) (k : nat) (r : list cell) :
  ~ In k js -> cellD (coerce_row_all js r) k = cellD r k.
Proof.
  unfold coerce_row_all. revert r.
  induction js as [| j js IH]; intros r Hnot; simpl; [reflexivity |].
  rewrite IH by (intros H; apply Hnot; right; exact H).
  rewrite cellD_coerce_row.
  destruct (k =? j) eqn:E; [| reflexivity].
  apply Nat.eqb_eq in E. subst. exfalso. apply Hnot. left. reflexivity.
Qed.

Lemma coerce_row_all_idem (js : list nat) (r : list cell) :
  coerce_row_all js (coerce_row_all js r) = coerce_row_all js r.
Proof.
  apply (nth_ext _ _ (Num nan) (Num nan)).
  - apply length_coerce_row_all.
  - intros k Hk. rewrite !length_coerce_row_all in Hk.
    change (cellD (coerce_row_all js (coerce_row_all js r)) k =
            cellD (coerce_row_all js r) k).
    destruct (in_dec Nat.eq_dec k js) as [Hin | Hnot].
    + rewrite (coerce_row_all_In js k (coerce_row_all js r) Hin)
        by (rewrite length_coerce_row_all; exact Hk).
      rewrite (coerce_row_all_In js k r Hin Hk). reflexivity.
    + apply cellD_coerce_row_all_notin. exact Hnot.
Qed.

Lemma coerce_cols_idem (js : list nat) (df : DataFrame) :
  coerce_cols js (coerce_cols js df) = coerce_cols js df.
Proof.
  unfold coerce_cols. cbn [columns rows]. f_equal.
  rewrite map_map. apply map_ext. intros r. apply coerce_row_all_idem.
Qed.

Lemma signal_value_coerce_cols (js : list nat) (df : DataFrame) (s : signal)
  (i : nat) :
  signal_value (coerce_cols js df) s i = signal_value df s i.
Proof.
  unfold signal_value.
  change (map_columns (coerce_cols js df)) with (map_columns df).
  destruct (dict_get (map_columns df) s) as [col |]; cbn [bind];
    [| reflexivity].
  unfold cell_at. cbn [columns rows coerce_cols].
  destruct (get_loc (columns df) col) as [j |]; cbn [bind]; [| reflexivity].
  rewrite nth_error_map.
  destruct (nth_error (rows df) i) as [r |]; cbn [option_map bind];
    [| reflexivity].
  destruct (Nat.lt_ge_cases j (List.length r)) as [Hlt | Hge].
  - rewrite (nth_error_cellD r j Hlt).
    rewrite nth_error_cellD by (rewrite length_coerce_row_all; exact Hlt).
    cbn [bind]. rewrite to_numeric_coerce_row_all. reflexivity.
  - assert (H1 : nth_error r j = None) by (apply nth_error_None; exact Hge).
    assert (H2 : nth_error (coerce_row_all js r) j = None).
    { apply nth_error_None. rewrite length_coerce_row_all. exact Hge. }
    rewrite H1, H2. reflexivity.
Qed.

Lemma fold_left_ext {A B : Type} (f g : A -> B -> A) (l : list B) (a : A) :
  (forall x y, f x y = g x y) -> fold_left f l a = fold_left g l a.
Proof.
  intros H. revert a. induction l as [| b l IH]; intros a; simpl.
  - reflexivity.
  - rewrite H. apply IH.
Qed.

Lemma expected_dicts_coerce_cols (js : list nat) (df : DataFrame) :
  expected_dicts (coerce_cols js df) = expected_dicts df.
Proof.
  unfold expected_dicts.
  change (map_columns (coerce_cols js df)) with (map_columns df).
  apply fold_left_ext. intros bv item. apply bupdate_ext.
  intros col. apply numeric_column_coerce_cols.
Qed.

Lemma expected_events_coerce_cols (js : list nat) (df : DataFrame)
  (bl : dict float) :
  expected_events (coerce_cols js df) bl = expected_events df bl.
Proof.
  unfold expected_events. cbn [rows coerce_cols]. rewrite length_map.
  apply flat_map_ext. intros i. f_equal.
  unfold triggered_signals. apply filter_ext. intros s.
  unfold satisfied. rewrite signal_value_coerce_cols. reflexivity.
Qed.

Lemma run_coerced (df : DataFrame) :
  wf_df df = true ->
  run (coerce_cols (mapped_locs df (map_columns df)) df) = run df.
Proof.
  intros Hwf. rewrite (run_closed df Hwf).
  rewrite run_closed by (rewrite wf_coerce_cols; exact Hwf).
  change (map_columns (coerce_cols (mapped_locs df (map_columns df)) df))
    with (map_columns df).
  change (mapped_locs (coerce_cols (mapped_locs df (map_columns df)) df)
            (map_columns df))
    with (mapped_locs df (map_columns df)).
  rewrite coerce_cols_idem, expected_dicts_coerce_cols.
  cbv zeta. rewrite expected_events_coerce_cols.
  cbn [rows coerce_cols]. rewrite length_map. reflexivity.
Qed.

Lemma upload_csv_closed (df : DataFrame) :
  wf_df df = true ->
  upload_csv df =
  Some (let bl := fst (expected_dicts df) in
        let evs := expected_events df bl in
        {| baselines := bl;
           volatility := snd (expected_dicts df);
           deviation_rows := evs;
           total_rows := List.length (rows df);
           deviation_count := List.length evs;
           max_severity := py_max (map severity evs) 0;
           multi_signal :=
             List.length (filter (fun r => 2 <=? severity r) evs) |}).
Proof.
  intros Hwf. unfold upload_csv. rewrite (run_closed df Hwf). reflexivity.
Qed.

Lemma rows_coerced_nth (df : DataFrame) (js : list nat) (i : nat)
  (r : list cell) :
  nth_error (rows (coerce_cols js df)) i = Some r ->
  exists r0, nth_error (rows df) i = Some r0 /\ r = coerce_row_all js r0.
Proof.
  cbn [rows coerce_cols]. rewrite nth_error_map.
  destruct (nth_error (rows df) i) as [r0 |]; simpl; intros H;
    [| discriminate].
  exists r0. split; [reflexivity | congruence].
Qed.

(** ** Auxiliary facts for the properties below *)

Lemma satisfied_at (df : DataFrame) (bl : dict float) (i : nat) (s : signal)
  (col : string) (b : float) (c : cell) :
  dict_get (map_columns df) s = Some col ->
  dict_get bl s = Some b ->
  cell_at df i col = Some c ->
  PrimFloat.is_nan (to_numeric c) = false ->
  satisfied df bl i s = trigger_condition s (to_numeric c) b.
Proof.
  intros Hcol Hb Hc Hnan. unfold satisfied, signal_value.
  rewrite Hb, Hcol. cbn [bind]. rewrite Hc. cbn [bind]. rewrite Hnan.
  reflexivity.
Qed.

Lemma In_map_signal_name (s : signal) (t : list signal) :
  In (signal_name s) (map signal_name t) <-> In s t.
Proof.
  rewrite in_map_iff. split.
  - intros [s' [E Hin]]. apply signal_name_inj in E. subst. exact Hin.
  - intros Hin. exists s. split; [reflexivity | exact Hin].
Qed.

Lemma filter_none {A : Type} (p : A -> bool) (l : list A) :
  (forall x, In x l -> p x = false) -> filter p l = [].
Proof.
  induction l as [| a l IH]; simpl; intros H; [reflexivity |].
  rewrite (H a) by auto. apply IH. auto.
Qed.

Lemma valid_values_nil (df : DataFrame) (col : string) :
  wf_df df = true -> In col (columns df) ->
  (forall i c, cell_at df i col = Some c ->
               PrimFloat.is_nan (to_numeric c) = true) ->
  valid_values df col = [].
Proof.
  intros Hwf Hin Hall. destruct (get_loc_In _ _ Hin) as [j Hj].
  unfold valid_values, numeric_column. rewrite Hj.
  apply filter_none. intros x Hx. apply in_map_iff in Hx.
  destruct Hx as [r [Hx Hr]]. subst x.
  destruct (In_nth_error _ _ Hr) as [i Hi].
  rewrite (Hall i (cellD r j)); [reflexivity |].
  unfold cell_at. rewrite Hj. cbn [bind]. rewrite Hi. cbn [bind].
  apply nth_error_cellD. rewrite (wf_row df r Hwf Hr).
  eapply get_loc_lt. exact Hj.
Qed.

Lemma bupdate_loop_no_rows (df : DataFrame) (items : dict string)
  (bv : dict float * dict float) :
  rows df = [] -> fold_left (bupdate df) items bv = bv.
Proof.
  intros Hrows. revert bv. induction items as [| item items IH]; intros bv.
  - reflexivity.
  - cbn [fold_left]. rewrite <- (IH bv) at 2. f_equal.
    unfold bupdate, valid_values, numeric_column. rewrite Hrows.
    destruct (get_loc (columns df) (snd item)); reflexivity.
Qed.

Lemma find_split {A : Type} (p : A -> bool) (l : list A) (x : A) :
  find p l = Some x ->
  exists l1 l2, l = l1 ++ x :: l2 /\ p x = true /\
                forallb (fun y => negb (p y)) l1 = true.
Proof.
  induction l as [| a l IH]; simpl; intros H; [discriminate |].
  destruct (p a) eqn:E.
  - inversion H; subst. exists [], l. auto.
  - destruct (IH H) as [l1 [l2 [H1 [H2 H3]]]].
    exists (a :: l1), l2. subst l. simpl. rewrite E, H3. auto.
Qed.

Lemma forallb_rev {A : Type} (p : A -> bool) (l : list A) :
  forallb p (rev l) = forallb p l.
Proof.
  induction l as [| a l IH]; simpl; [reflexivity |].
  rewrite forallb_app, IH. simpl. rewrite andb_true_r. apply andb_comm.
Qed.

Ltac report_of df Hwf :=
  rewrite (upload_csv_closed df Hwf); eexists; split; [reflexivity |];
  cbv zeta;
  cbn [baselines volatility deviation_rows total_rows deviation_count
       max_severity multi_signal].

Ltac state_of df Hwf :=
  rewrite (run_closed df Hwf); do 2 eexists; split; [reflexivity |];
  cbv zeta;
  cbn [baselines volatility deviation_rows total_rows deviation_count
       max_severity multi_signal].

(** ** The properties *)

(** C1: on every (rectangular) input table the pipeline returns a report
    in which a row has a Deviation Event if and only if some signal is
    mapped to a column, has a baseline, has a value in that row that is not
    missing after coercion, and meets its trigger condition there; the
    severity of every event is the number of signals for which this holds
    in the row of the event. *)
Theorem deviation_event_iff_satisfied (df : DataFrame) :
  wf_df df = true ->
  exists rep,
    upload_csv df = Some rep /\
    (forall i, i < List.length (rows df) ->
       ((exists ev, In ev (deviation_rows rep) /\ row ev = i) <->
        (exists s col b c,
            dict_get (map_columns df) s = Some col /\
            dict_get (baselines rep) s = Some b /\
            cell_at df i col = Some c /\
            PrimFloat.is_nan (to_numeric c) = false /\
            trigger_condition s (to_numeric c) b = true))) /\
    (forall ev, In ev (deviation_rows rep) ->
       row ev < List.length (rows df) /\
       severity ev =
       List.length (filter (satisfied df (baselines rep) (row ev))
                           all_signals)).
Proof.
  intros Hwf. report_of df Hwf. split.
  - intros i Hi. split.
    + intros [ev [Hin Hrow]].
      apply In_expected_events in Hin. destruct Hin as [i' [_ Hev]].
      apply In_event_of in Hev. destruct Hev as [Hne Heq].
      subst ev. cbn [row] in Hrow. subst i'.
      destruct (triggered_signals df (fst (expected_dicts df)) i)
        as [| s t] eqn:E; [contradiction |].
      assert (Hs : In s (triggered_signals df (fst (expected_dicts df)) i))
        by (rewrite E; left; reflexivity).
      apply In_triggered_signals, satisfied_iff in Hs.
      destruct Hs as [col [b [c Hs]]]. exists s, col, b, c. exact Hs.
    + intros [s [col [b [c Hs]]]].
      assert (Hsat : satisfied df (fst (expected_dicts df)) i s = true).
      { apply satisfied_iff. exists col, b, c. exact Hs. }
      apply In_triggered_signals in Hsat.
      eexists. split.
      * apply In_expected_events. exists i. split; [exact Hi |].
        apply In_event_of. split; [| reflexivity].
        intros E. rewrite E in Hsat. contradiction.
      * reflexivity.
  - intros ev Hin.
    apply In_expected_events in Hin. destruct Hin as [i [Hi Hev]].
    apply In_event_of in Hev. destruct Hev as [_ Heq]. subst ev.
    cbn [row severity]. split; [exact Hi | reflexivity].
Qed.

(** C2 (as the program does it): for every canonical signal and every list
    of headers, the column mapped to the signal is the last header in table
    order whose trimmed, lower-cased text is one of the aliases of the
    signal: no header after it matches, and the signal is unmapped exactly
    when no header matches. *)
Theorem column_resolver_keeps_last_match (df : DataFrame) (s : signal) :
  dict_get (map_columns df) s = last_match s (columns df) /\
  (forall col, dict_get (map_columns df) s = Some col ->
     header_matches s col = true /\
     exists before after,
       columns df = before ++ col :: after /\
       forallb (fun h => negb (header_matches s h)) after = true) /\
  (dict_get (map_columns df) s = None <->
   forall h, In h (columns df) -> header_matches s h = false).
Proof.
  rewrite map_columns_get. unfold last_match. split; [reflexivity |]. split.
  - intros col H. apply find_split in H.
    destruct H as [l1 [l2 [H1 [H2 H3]]]]. split; [exact H2 |].
    exists (rev l2), (rev l1). split.
    + rewrite <- (rev_involutive (columns df)), H1, rev_app_distr.
      simpl. rewrite <- app_assoc. reflexivity.
    + rewrite forallb_rev. exact H3.
  - split.
    + intros H h Hh. apply in_rev in Hh.
      apply (find_none _ _ H h Hh).
    + intros H. destruct (find (header_matches s) (rev (columns df)))
        as [c |] eqn:E; [| reflexivity].
      apply find_some in E. destruct E as [E1 E2].
      apply in_rev in E1. rewrite (H c E1) in E2. discriminate.
Qed.

(** C3 (as the program does it): the volatility stored for a signal is
    Q3 - Q1 of the valid numeric values of its column when that difference
    is not zero, and 1e-6 when it is exactly zero; it is never zero. *)
Theorem volatility_is_iqr_or_epsilon (df : DataFrame) :
  wf_df df = true ->
  exists rep,
    upload_csv df = Some rep /\
    forall s v, dict_get (volatility rep) s = Some v ->
      exists col,
        dict_get (map_columns df) s = Some col /\
        valid_values df col <> [] /\
        (let xs := valid_values df col in
         let iqr := (quantile xs 0.75 - quantile xs 0.25)%float in
         v = if (iqr =? 0)%float then 1e-6%float else iqr) /\
        (v =? 0)%float = false.
Proof.
  intros Hwf. report_of df Hwf.
  intros s v Hv. rewrite expected_volatility_get in Hv.
  destruct (dict_get (map_columns df) s) as [col |]; [| discriminate].
  exists col. split; [reflexivity |].
  destruct (valid_values df col) as [| x xs] eqn:E; [discriminate |].
  inversion Hv as [Hv']. split; [discriminate |]. split.
  - reflexivity.
  - apply stored_volatility_nonzero.
Qed.

(** C4: for every row and every signal that is mapped and has a baseline
    [b], when the value [v] of the signal in the row is not missing the
    inner loop puts the signal among the triggered ones exactly when
    heart_rate: abs(v - b) / b > 0.15; spo2: b - v > 2;
    systolic_bp: abs(v - b) > 10; diastolic_bp: abs(v - b) > 5. *)
Theorem trigger_conditions_exact (df : DataFrame) :
  wf_df df = true ->
  exists df' rep,
    run df = Some (df', rep) /\
    forall i r s col b c,
      nth_error (rows df') i = Some r ->
      dict_get (map_columns df) s = Some col ->
      dict_get (baselines rep) s = Some b ->
      cell_at df i col = Some c ->
      PrimFloat.is_nan (to_numeric c) = false ->
      exists t,
        row_triggered df' (map_columns df) (baselines rep) r = Some t /\
        let v := to_numeric c in
        (In (signal_name s) t <->
         match s with
         | heart_rate => (0.15 <? abs (v - b) / b)%float = true
         | spo2 => (2 <? b - v)%float = true
         | systolic_bp => (10 <? abs (v - b))%float = true
         | diastolic_bp => (5 <? abs (v - b))%float = true
         end).
Proof.
  intros Hwf. state_of df Hwf.
  intros i r s col b c Hr Hcol Hb Hc Hnan.
  apply rows_coerced_nth in Hr. destruct Hr as [r0 [Hr0 ->]].
  rewrite (row_triggered_closed df _ i r0 Hwf Hr0).
  eexists. split; [reflexivity |]. cbv zeta.
  rewrite In_map_signal_name, In_triggered_signals.
  rewrite (satisfied_at df _ i s col b c Hcol Hb Hc Hnan).
  destruct s; cbn [trigger_condition]; reflexivity.
Qed.

(** C5: the counter total_rows of the report is the number of rows of the
    input table, whatever its cells hold. *)
Theorem total_rows_is_row_count (df : DataFrame) :
  wf_df df = true ->
  exists rep,
    upload_csv df = Some rep /\ total_rows rep = List.length (rows df).
Proof.
  intros Hwf. report_of df Hwf. reflexivity.
Qed.

(** C6: a signal mapped to a column in which no cell coerces to a number
    gets no baseline and no volatility, is triggered by no row, and the
    pipeline still returns its report. *)
Theorem unbaselined_signal_skipped (df : DataFrame) (s : signal)
  (col : string) :
  wf_df df = true ->
  dict_get (map_columns df) s = Some col ->
  (forall i c, cell_at df i col = Some c ->
               PrimFloat.is_nan (to_numeric c) = true) ->
  exists df' rep,
    run df = Some (df', rep) /\
    dict_get (baselines rep) s = None /\
    dict_get (volatility rep) s = None /\
    (forall i r, nth_error (rows df') i = Some r ->
       exists t,
         row_triggered df' (map_columns df) (baselines rep) r = Some t /\
         ~ In (signal_name s) t) /\
    (forall i, satisfied df (baselines rep) i s = false).
Proof.
  intros Hwf Hcol Hall. state_of df Hwf.
  assert (Hvv : valid_values df col = []).
  { apply valid_values_nil; [exact Hwf | | exact Hall].
    apply (map_columns_In_columns df s). apply dict_get_In. exact Hcol. }
  assert (Hbl : dict_get (fst (expected_dicts df)) s = None).
  { rewrite expected_baseline_get, Hcol, Hvv. reflexivity. }
  assert (Hsat : forall i, satisfied df (fst (expected_dicts df)) i s = false).
  { intros i. unfold satisfied. rewrite Hbl. reflexivity. }
  split; [exact Hbl |]. split.
  - rewrite expected_volatility_get, Hcol, Hvv. reflexivity.
  - split; [| exact Hsat].
    intros i r Hr. apply rows_coerced_nth in Hr. destruct Hr as [r0 [Hr0 ->]].
    rewrite (row_triggered_closed df _ i r0 Hwf Hr0).
    eexists. split; [reflexivity |].
    rewrite In_map_signal_name, In_triggered_signals, Hsat. discriminate.
Qed.

(** C7: on a table without rows, whatever its headers, the pipeline
    returns a report with total_rows = 0, no event, max_severity = 0 and
    multi_signal = 0 (and no baseline record). *)
Theorem empty_table_report (cols : list string) :
  exists rep,
    upload_csv {| columns := cols; rows := [] |} = Some rep /\
    total_rows rep = 0 /\
    deviation_rows rep = [] /\
    deviation_count rep = 0 /\
    max_severity rep = 0 /\
    multi_signal rep = 0 /\
    baselines rep = [] /\
    volatility rep = [].
Proof.
  assert (Hwf : wf_df {| columns := cols; rows := [] |} = true)
    by reflexivity.
  report_of {| columns := cols; rows := [] |} Hwf.
  unfold expected_dicts. rewrite bupdate_loop_no_rows by reflexivity.
  repeat split; reflexivity.
Qed.

(** C8: two runs on identical tables return the same baselines,
    volatilities and events in the same order, and so does a further run
    on the table that the first run has left coerced in place. *)
Theorem rerun_identical (df1 df2 : DataFrame) :
  wf_df df1 = true -> df2 = df1 ->
  exists df' rep,
    run df1 = Some (df', rep) /\
    run df2 = Some (df', rep) /\
    run df' = Some (df', rep).
Proof.
  intros Hwf ->. pose proof (run_coerced df1 Hwf) as Hre.
  rewrite (run_closed df1 Hwf) in *.
  do 2 eexists. split; [reflexivity |]. split; [reflexivity |]. exact Hre.
Qed.

(** C9: the signals that hold a baseline are those that hold a volatility:
    the two dictionaries have the same keys, in the same order. *)
Theorem baseline_volatility_same_keys (df : DataFrame) :
  wf_df df = true ->
  exists rep,
    upload_csv df = Some rep /\
    keys (baselines rep) = keys (volatility rep) /\
    forall s,
      (exists b, dict_get (baselines rep) s = Some b) <->
      (exists v, dict_get (volatility rep) s = Some v).
Proof.
  intros Hwf. report_of df Hwf. split.
  - unfold expected_dicts. apply bupdate_loop_keys. reflexivity.
  - intros s. rewrite expected_baseline_get, expected_volatility_get.
    destruct (dict_get (map_columns df) s) as [col |].
    + destruct (valid_values df col); split; intros [x Hx];
        try discriminate; eexists; reflexivity.
    + split; intros [x Hx]; discriminate.
Qed.

(** C10: in every event the triggered signals are a selection of
    heart_rate, spo2, systolic_bp, diastolic_bp in this order, whatever the
    order of the headers; no signal occurs twice and the severity is
    between 1 and 4. *)
Theorem triggered_order_canonical (df : DataFrame) :
  wf_df df = true ->
  exists rep,
    upload_csv df = Some rep /\
    forall ev, In ev (deviation_rows rep) ->
      exists t : list signal,
        signals ev = String.concat ", " (map signal_name t) /\
        severity ev = List.length t /\
        (exists keep, t = filter keep all_signals) /\
        NoDup t /\
        1 <= severity ev <= 4.
Proof.
  intros Hwf. report_of df Hwf.
  intros ev Hin. apply In_expected_events in Hin.
  destruct Hin as [i [_ Hev]]. apply In_event_of in Hev.
  destruct Hev as [Hne Heq]. subst ev. cbn [signals severity].
  exists (triggered_signals df (fst (expected_dicts df)) i).
  split; [reflexivity |]. split; [reflexivity |]. split.
  - eexists. reflexivity.
  - split.
    + apply NoDup_filter, all_signals_NoDup.
    + split.
      * destruct (triggered_signals df (fst (expected_dicts df)) i);
          [contradiction | simpl; lia].
      * unfold triggered_signals.
        apply (Nat.le_trans _ _ _ (filter_length_le _ _)). reflexivity.
Qed.


(** ** Further properties: the order of the events and the counters *)


Lemma event_of_length (i : nat) (t : list signal) :
  List.length (event_of i t) = if existsb (fun _ => true) t then 1 else 0.
Proof. destruct t; reflexivity. Qed.



Lemma events_count_from (f : nat -> list signal) (l : list nat) :
  List.length (flat_map (fun i => event_of i (f i)) l) =
  List.length (filter (fun i => existsb (fun _ => true) (f i)) l).
Proof.
  induction l as [| i l IH]; simpl; [reflexivity |].
  rewrite length_app, IH, event_of_length.
  destruct (existsb (fun _ => true) (f i)); reflexivity.
Qed.

Lemma existsb_filter_nonempty {A : Type} (p : A -> bool) (l : list A) :
  existsb (fun _ => true) (filter p l) = existsb p l.
Proof.
  induction l as [| a l IH]; simpl; [reflexivity |].
  destruct (p a); simpl; [reflexivity | exact IH].
Qed.

Lemma fold_max_ge (t : list nat) (x : nat) :
  x <= fold_left Nat.max t x /\
  (forall y, In y t -> y <= fold_left Nat.max t x) /\
  In (fold_left Nat.max t x) (x :: t).
Proof.
  revert x. induction t as [| y t IH]; intros x; cbn [fold_left].
  - split; [lia |]. split; [intros y [] | left; reflexivity].
  - destruct (IH (Nat.max x y)) as [H1 [H2 H3]]. split; [lia |]. split.
    + intros z [-> | Hz]; [lia | apply H2; exact Hz].
    + destruct H3 as [H3 | H3].
      * destruct (Nat.max_spec x y) as [[_ E] | [_ E]]; rewrite E in *.
        -- right. left. exact H3.
        -- left. exact H3.
      * right. right. exact H3.
Qed.

Lemma py_max_spec (l : list nat) (d : nat) :
  (l = [] -> py_max l d = d) /\
  (forall y, In y l -> y <= py_max l d) /\
  (l <> [] -> In (py_max l d) l).
Proof.
  destruct l as [| x t]; cbn [py_max].
  - split; [reflexivity |]. split; [intros y [] | intros H; congruence].
  - destruct (fold_max_ge t x) as [H1 [H2 H3]].
    split; [discriminate |]. split.
    + intros y [-> | Hy]; [exact H1 | apply H2; exact Hy].
    + intros _. exact H3.
Qed.

Lemma expected_event_severity (df : DataFrame) (bl : dict float) (ev : event) :
  In ev (expected_events df bl) -> 1 <= severity ev <= 4.
Proof.
  intros Hin. apply In_expected_events in Hin.
  destruct Hin as [i [_ Hev]]. apply In_event_of in Hev.
  destruct Hev as [Hne ->]. cbn [severity]. split.
  - destruct (triggered_signals df bl i); [contradiction | simpl; lia].
  - unfold triggered_signals.
    apply (Nat.le_trans _ _ _ (filter_length_le _ _)). reflexivity.
Qed.

Lemma filter_length_zero {A : Type} (p : A -> bool) (l : list A) :
  List.length (filter p l) = 0 <-> forall x, In x l -> p x = false.
Proof.
  induction l as [| a l IH]; simpl.
  - split; [intros _ x [] | reflexivity].
  - destruct (p a) eqn:E; simpl.
    + split; [discriminate |]. intros H. specialize (H a (or_introl eq_refl)).
      congruence.
    + rewrite IH. split.
      * intros H x [-> | Hx]; [exact E | apply H; exact Hx].
      * intros H x Hx. apply H. right. exact Hx.
Qed.


(** X2: deviation_count is the number of rows in which at least one signal
    is satisfied, and so is at most total_rows. *)
Theorem deviation_count_counts_rows (df : DataFrame) :
  wf_df df = true ->
  exists rep,
    upload_csv df = Some rep /\
    deviation_count rep =
    List.length
      (filter (fun i => existsb (satisfied df (baselines rep) i) all_signals)
              (seq 0 (List.length (rows df)))) /\
    deviation_count rep <= total_rows rep.
Proof.
  intros Hwf. report_of df Hwf.
  assert (E : List.length (expected_events df (fst (expected_dicts df))) =
              List.length
                (filter (fun i => existsb
                           (satisfied df (fst (expected_dicts df)) i)
                           all_signals)
                        (seq 0 (List.length (rows df))))).
  { unfold expected_events. rewrite events_count_from.
    f_equal. apply filter_ext. intros i. unfold triggered_signals.
    apply existsb_filter_nonempty. }
  split; [exact E |]. rewrite E.
  apply (Nat.le_trans _ _ _ (filter_length_le _ _)).
  rewrite length_seq. reflexivity.
Qed.

(** X3: max_severity bounds the severity of every event and is the
    severity of one of them when there is any; it is 0 exactly when there
    is no event, and never above 4. *)
Theorem max_severity_is_maximum (df : DataFrame) :
  wf_df df = true ->
  exists rep,
    upload_csv df = Some rep /\
    (forall ev, In ev (deviation_rows rep) ->
                severity ev <= max_severity rep) /\
    (deviation_rows rep <> [] ->
     exists ev, In ev (deviation_rows rep) /\
                severity ev = max_severity rep) /\
    (max_severity rep = 0 <-> deviation_rows rep = []) /\
    max_severity rep <= 4.
Proof.
  intros Hwf. report_of df Hwf.
  set (evs := expected_events df (fst (expected_dicts df))).
  destruct (py_max_spec (map severity evs) 0) as [H0 [Hge Hin]].
  assert (Hatt : evs <> [] ->
            exists ev, In ev evs /\
                       severity ev = py_max (map severity evs) 0).
  { intros Hne. assert (Hm : map severity evs <> []).
    { destruct evs; [congruence | discriminate]. }
    specialize (Hin Hm). apply in_map_iff in Hin.
    destruct Hin as [ev [E Hev]]. exists ev. split; [exact Hev | exact E]. }
  split.
  { intros ev Hev. apply Hge. apply in_map. exact Hev. }
  split; [exact Hatt |]. split.
  - split.
    + intros Hz. destruct evs as [| e l] eqn:Ee; [reflexivity |].
      destruct Hatt as [ev [Hev Hsev]]; [discriminate |].
      rewrite <- Ee in Hev.
      pose proof (expected_event_severity df _ ev Hev) as Hb.
      rewrite Hsev, Hz in Hb. lia.
    + intros ->. reflexivity.
  - destruct evs as [| e l] eqn:Ee; [simpl; lia |].
    destruct Hatt as [ev [Hev Hsev]]; [discriminate |].
    rewrite <- Ee in Hev.
    pose proof (expected_event_severity df _ ev Hev) as Hb.
    rewrite <- Hsev. lia.
Qed.

(** X4: multi_signal counts the events of severity at least 2: it is at
    most deviation_count, and it is 0 exactly when max_severity is at
    most 1. *)
Theorem multi_signal_bounds (df : DataFrame) :
  wf_df df = true ->
  exists rep,
    upload_csv df = Some rep /\
    multi_signal rep <= deviation_count rep /\
    (multi_signal rep = 0 <-> max_severity rep <= 1).
Proof.
  intros Hwf. report_of df Hwf.
  set (evs := expected_events df (fst (expected_dicts df))).
  split; [apply filter_length_le |].
  destruct (py_max_spec (map severity evs) 0) as [H0 [Hge Hin]].
  rewrite filter_length_zero. split.
  - intros Hall. destruct evs as [| e l] eqn:Ee; [simpl; lia |].
    assert (Hm : map severity (e :: l) <> []) by discriminate.
    specialize (Hin Hm). apply in_map_iff in Hin.
    destruct Hin as [ev [E Hev]]. specialize (Hall ev Hev).
    apply Nat.leb_gt in Hall. lia.
  - intros Hmax ev Hev. apply Nat.leb_gt.
    specialize (Hge (severity ev) (in_map severity _ _ Hev)). lia.
Qed.


(** ** Further properties: headers and the column mapping *)

Lemma is_space_lower_char (c : ascii) : is_space (lower_char c) = is_space c.
Proof.
  destruct c as [b0 b1 b2 b3 b4 b5 b6 b7].
  destruct b0, b1, b2, b3, b4, b5, b6, b7; vm_compute; reflexivity.
Qed.

Lemma lower_char_idem (c : ascii) : lower_char (lower_char c) = lower_char c.
Proof.
  destruct c as [b0 b1 b2 b3 b4 b5 b6 b7].
  destruct b0, b1, b2, b3, b4, b5, b6, b7; vm_compute; reflexivity.
Qed.

Lemma lower_idem (s : string) : lower (lower s) = lower s.
Proof.
  induction s as [| c s IH]; simpl; [reflexivity |].
  rewrite lower_char_idem, IH. reflexivity.
Qed.

Lemma lstrip_lower (s : string) : lstrip (lower s) = lower (lstrip s).
Proof.
  induction s as [| c s IH]; simpl; [reflexivity |].
  rewrite is_space_lower_char. destruct (is_space c); [exact IH | reflexivity].
Qed.

Lemma rstrip_lower (s : string) : rstrip (lower s) = lower (rstrip s).
Proof.
  induction s as [| c s IH]; simpl; [reflexivity |].
  rewrite IH, is_space_lower_char.
  destruct (rstrip s) as [| c0 r]; simpl.
  - destruct (is_space c); reflexivity.
  - reflexivity.
Qed.

Lemma strip_lower (s : string) : strip (lower s) = lower (strip s).
Proof. unfold strip. rewrite lstrip_lower, rstrip_lower. reflexivity. Qed.

Lemma lstrip_all_space (s : string) :
  all_space s = true -> lstrip s = EmptyString.
Proof.
  induction s as [| c s IH]; simpl; intros H; [reflexivity |].
  apply andb_true_iff in H. destruct H as [Hc Hs]. rewrite Hc. auto.
Qed.

Lemma rstrip_all_space (s : string) :
  all_space s = true -> rstrip s = EmptyString.
Proof.
  induction s as [| c s IH]; simpl; intros H; [reflexivity |].
  apply andb_true_iff in H. destruct H as [Hc Hs].
  rewrite (IH Hs), Hc. reflexivity.
Qed.

Lemma lstrip_app_space (pre s : string) :
  all_space pre = true -> lstrip (pre ++ s) = lstrip s.
Proof.
  induction pre as [| c pre IH]; simpl; intros H; [reflexivity |].
  apply andb_true_iff in H. destruct H as [Hc Hs]. rewrite Hc. auto.
Qed.

Lemma rstrip_app_space (s post : string) :
  all_space post = true -> rstrip (s ++ post) = rstrip s.
Proof.
  intros H. induction s as [| c s IH]; simpl.
  - apply rstrip_all_space. exact H.
  - rewrite IH. reflexivity.
Qed.

Lemma lstrip_app_nonempty (s post : string) :
  lstrip s <> EmptyString -> lstrip (s ++ post) = (lstrip s ++ post)%string.
Proof.
  induction s as [| c s IH]; simpl; intros H.
  - congruence.
  - destruct (is_space c); [apply IH; exact H | reflexivity].
Qed.

Lemma lstrip_nonempty_or_space (s : string) :
  lstrip s = EmptyString -> all_space s = true.
Proof.
  induction s as [| c s IH]; simpl; intros H; [reflexivity |].
  destruct (is_space c); [simpl; auto | discriminate].
Qed.

Lemma all_space_app (a b : string) :
  all_space (a ++ b) = all_space a && all_space b.
Proof.
  induction a as [| c a IH]; simpl; [reflexivity |].
  rewrite IH, andb_assoc. reflexivity.
Qed.

Lemma strip_padding (pre h post : string) :
  all_space pre = true -> all_space post = true ->
  strip (pre ++ h ++ post) = strip h.
Proof.
  intros Hpre Hpost. unfold strip. rewrite (lstrip_app_space pre _ Hpre).
  destruct (lstrip h) as [| c r] eqn:E.
  - rewrite lstrip_all_space; [reflexivity |].
    rewrite all_space_app, Hpost, (lstrip_nonempty_or_space h E).
    reflexivity.
  - rewrite lstrip_app_nonempty by (rewrite E; discriminate).
    rewrite E. apply rstrip_app_space. exact Hpost.
Qed.

Lemma str_in_true (x : string) (l : list string) :
  str_in x l = true <-> In x l.
Proof.
  unfold str_in. rewrite existsb_exists. split.
  - intros [y [Hy E]]. apply String.eqb_eq in E. subst. exact Hy.
  - intros H. exists x. split; [exact H | apply String.eqb_refl].
Qed.

Lemma aliases_disjoint (x : string) (s1 s2 : signal) :
  str_in x (aliases s1) = true -> str_in x (aliases s2) = true -> s1 = s2.
Proof.
  intros H1 H2. apply str_in_true in H1.
  destruct s1, s2; try reflexivity; exfalso;
    cbn in H1;
    repeat (destruct H1 as [H1 | H1];
            [subst x; vm_compute in H2; discriminate H2 |]);
    exact H1.
Qed.

Lemma find_Forall2 {A : Type} (R : A -> A -> Prop) (p : A -> bool)
  (l1 l2 : list A) :
  (forall a b, R a b -> p a = p b) ->
  Forall2 R l1 l2 ->
  match find p l1, find p l2 with
  | Some a, Some b => R a b
  | None, None => True
  | _, _ => False
  end.
Proof.
  intros Hp H. induction H as [| a b l1 l2 Hab H IH]; simpl; [exact I |].
  rewrite <- (Hp a b Hab). destruct (p a); [exact Hab | exact IH].
Qed.

Lemma Forall2_rev {A : Type} (R : A -> A -> Prop) (l1 l2 : list A) :
  Forall2 R l1 l2 -> Forall2 R (rev l1) (rev l2).
Proof.
  induction 1 as [| a b l1 l2 Hab H IH]; simpl; [constructor |].
  apply Forall2_app; [exact IH | constructor; [exact Hab | constructor]].
Qed.

Lemma detect_loop_no_mapping (df : DataFrame) (bl : dict float)
  (l : list (nat * list cell)) (acc : list event) :
  foldM (detect_step df [] bl) l acc = Some acc.
Proof.
  induction l as [| ir l IH]; simpl; [reflexivity | exact IH].
Qed.

(** X5: the test of a header against the aliases ignores whitespace
    around the header and the case of its letters. *)
Theorem header_padding_and_case_ignored (s : signal) (pre h post : string) :
  all_space pre = true -> all_space post = true ->
  header_matches s (pre ++ h ++ post) = header_matches s h /\
  header_matches s (lower h) = header_matches s h.
Proof.
  intros Hpre Hpost. unfold header_matches. split.
  - rewrite (strip_padding pre h post Hpre Hpost). reflexivity.
  - rewrite strip_lower, lower_idem. reflexivity.
Qed.

(** X6: two header lists that agree, position by position, after trimming
    and lower-casing map the same signals, in the same order, to headers
    that agree in the same way. *)
Theorem mapping_depends_on_normalised_headers (df1 df2 : DataFrame) :
  Forall2 (fun h1 h2 => lower (strip h1) = lower (strip h2))
          (columns df1) (columns df2) ->
  keys (map_columns df1) = keys (map_columns df2) /\
  forall s,
    match dict_get (map_columns df1) s, dict_get (map_columns df2) s with
    | Some c1, Some c2 => lower (strip c1) = lower (strip c2)
    | None, None => True
    | _, _ => False
    end.
Proof.
  intros H.
  assert (Hs : forall s,
             match dict_get (map_columns df1) s,
                   dict_get (map_columns df2) s with
             | Some c1, Some c2 => lower (strip c1) = lower (strip c2)
             | None, None => True
             | _, _ => False
             end).
  { intros s. rewrite !map_columns_get. unfold last_match.
    apply find_Forall2; [| apply Forall2_rev; exact H].
    intros a b E. unfold header_matches. rewrite E. reflexivity. }
  split; [| exact Hs].
  rewrite !map_columns_keys. apply filter_ext. intros s.
  unfold dict_mem. specialize (Hs s).
  destruct (dict_get (map_columns df1) s), (dict_get (map_columns df2) s);
    try reflexivity; contradiction.
Qed.

(** X7: every mapped column is a header of the table, and no column is
    mapped to two signals. *)
Theorem mapping_is_injective (df : DataFrame) (s1 s2 : signal) (col : string) :
  dict_get (map_columns df) s1 = Some col ->
  dict_get (map_columns df) s2 = Some col ->
  In col (columns df) /\ s1 = s2.
Proof.
  intros H1 H2. split.
  - apply (map_columns_In_columns df s1). apply dict_get_In. exact H1.
  - rewrite map_columns_get in H1, H2. unfold last_match in H1, H2.
    apply find_some in H1, H2. destruct H1 as [_ H1], H2 as [_ H2].
    unfold header_matches in H1, H2.
    exact (aliases_disjoint _ s1 s2 H1 H2).
Qed.

(** X8: when no header matches any alias, the program analyses nothing and
    still returns: the table is left as it is, there is no baseline and no
    event, the counters are 0 and total_rows is the number of rows. *)
Theorem no_resolvable_columns (df : DataFrame) :
  (forall s h, In h (columns df) -> header_matches s h = false) ->
  run df =
  Some (df,
        {| baselines := [];
           volatility := [];
           deviation_rows := [];
           total_rows := List.length (rows df);
           deviation_count := 0;
           max_severity := 0;
           multi_signal := 0 |}).
Proof.
  intros H.
  assert (Hm : map_columns df = []).
  { rewrite map_columns_closed.
    assert (Hl : forall s, last_match s (columns df) = None).
    { intros s. unfold last_match.
      destruct (find (header_matches s) (rev (columns df))) as [c |] eqn:E;
        [| reflexivity].
      apply find_some in E. destruct E as [E1 E2]. apply in_rev in E1.
      rewrite (H s c E1) in E2. discriminate. }
    unfold all_signals. cbn [flat_map]. rewrite !Hl. reflexivity. }
  unfold run. rewrite Hm. cbn [foldM bind].
  rewrite detect_loop_no_mapping. reflexivity.
Qed.

(** X9: a signal that no header names has no baseline, no volatility, and
    is triggered by no row. *)
Theorem unmapped_signal_absent (df : DataFrame) (s : signal) :
  wf_df df = true ->
  (forall h, In h (columns df) -> header_matches s h = false) ->
  exists df' rep,
    run df = Some (df', rep) /\
    dict_get (baselines rep) s = None /\
    dict_get (volatility rep) s = None /\
    forall i r, nth_error (rows df') i = Some r ->
      exists t,
        row_triggered df' (map_columns df) (baselines rep) r = Some t /\
        ~ In (signal_name s) t.
Proof.
  intros Hwf Hno. state_of df Hwf.
  assert (Hm : dict_get (map_columns df) s = None).
  { rewrite map_columns_get. unfold last_match.
    destruct (find (header_matches s) (rev (columns df))) as [c |] eqn:E;
      [| reflexivity].
    apply find_some in E. destruct E as [E1 E2]. apply in_rev in E1.
    rewrite (Hno c E1) in E2. discriminate. }
  assert (Hbl : dict_get (fst (expected_dicts df)) s = None).
  { rewrite expected_baseline_get, Hm. reflexivity. }
  split; [exact Hbl |]. split.
  - rewrite expected_volatility_get, Hm. reflexivity.
  - intros i r Hr. apply rows_coerced_nth in Hr. destruct Hr as [r0 [Hr0 ->]].
    rewrite (row_triggered_closed df _ i r0 Hwf Hr0).
    eexists. split; [reflexivity |].
    rewrite In_map_signal_name, In_triggered_signals.
    unfold satisfied. rewrite Hbl. discriminate.
Qed.


(** ** Further properties: the table after the run, and the baselines *)





Lemma dict_set_new {V : Type} (d : dict V) (k : signal) (v : V) :
  ~ In k (keys d) -> keys (dict_set d k v) = keys d ++ [k].
Proof.
  induction d as [| [k0 v0] d IH]; simpl; intros H.
  - reflexivity.
  - destruct (signal_eqb k0 k) eqn:E.
    + apply signal_eqb_eq in E. subst. exfalso. apply H. left. reflexivity.
    + simpl. rewrite IH; [reflexivity |]. intros Hin. apply H. right.
      exact Hin.
Qed.

Lemma bupdate_loop_key_list (df : DataFrame) (items : dict string) :
  NoDup (keys items) ->
  forall bv,
    (forall k, In k (keys items) -> ~ In k (keys (fst bv))) ->
    keys (fst (fold_left (bupdate df) items bv)) =
    keys (fst bv) ++
    map fst (filter (fun item => match valid_values df (snd item) with
                                 | [] => false
                                 | _ => true
                                 end) items).
Proof.
  induction items as [| [s c] items IH]; intros Hnd bv Hfresh.
  - simpl. rewrite app_nil_r. reflexivity.
  - inversion Hnd as [| ? ? Hnot Hnd']; subst. cbn [fold_left filter snd].
    rewrite IH; [| exact Hnd' |].
    + unfold bupdate. cbn [fst snd].
      destruct (valid_values df c) as [| x xs]; [reflexivity |].
      cbn [fst map]. rewrite dict_set_new.
      * rewrite <- app_assoc. reflexivity.
      * apply Hfresh. left. reflexivity.
    + intros k Hk Hin. unfold bupdate in Hin. cbn [fst snd] in Hin.
      destruct (valid_values df c) as [| x xs].
      * apply (Hfresh k); [right; exact Hk | exact Hin].
      * cbn [fst] in Hin. rewrite dict_set_new in Hin
          by (apply Hfresh; left; reflexivity).
        apply in_app_or in Hin. destruct Hin as [Hin | [-> | []]].
        -- apply (Hfresh k); [right; exact Hk | exact Hin].
        -- apply Hnot. exact Hk.
Qed.

Lemma map_fst_filter_keys {V : Type} (d : dict V) (P : signal * V -> bool)
  (R : signal -> bool) :
  (forall item, In item d -> P item = R (fst item)) ->
  map fst (filter P d) = filter R (keys d).
Proof.
  induction d as [| item d IH]; simpl; intros H; [reflexivity |].
  rewrite (H item) by auto.
  destruct (R (fst item)); simpl; rewrite IH by auto; reflexivity.
Qed.

Lemma filter_filter {A : Type} (p q : A -> bool) (l : list A) :
  filter p (filter q l) = filter (fun x => q x && p x) l.
Proof.
  induction l as [| a l IH]; simpl; [reflexivity |].
  destruct (q a); simpl; [destruct (p a) |]; rewrite IH; reflexivity.
Qed.




(** X11: a signal has a baseline exactly when it is mapped to a column
    with at least one valid numeric value, and the baseline is the median
    of these values. *)
Theorem baseline_is_median_of_valid_values (df : DataFrame) :
  wf_df df = true ->
  exists rep,
    upload_csv df = Some rep /\
    forall s b,
      dict_get (baselines rep) s = Some b <->
      exists col,
        dict_get (map_columns df) s = Some col /\
        valid_values df col <> [] /\
        b = median (valid_values df col).
Proof.
  intros Hwf. report_of df Hwf.
  intros s b. rewrite expected_baseline_get. split.
  - destruct (dict_get (map_columns df) s) as [col |]; [| discriminate].
    destruct (valid_values df col) as [| x xs] eqn:E; [discriminate |].
    intros H. inversion H. exists col.
    split; [reflexivity |]. rewrite E. split; [discriminate | reflexivity].
  - intros [col [Hc [Hne Hb]]]. rewrite Hc.
    destruct (valid_values df col) as [| x xs]; [congruence |].
    rewrite Hb. reflexivity.
Qed.

(** X12: the baselines, and with them the volatilities, are stored in the
    canonical order of the signals, whatever the order of the headers. *)
Theorem baselines_in_canonical_order (df : DataFrame) :
  wf_df df = true ->
  exists rep,
    upload_csv df = Some rep /\
    keys (baselines rep) =
    filter (fun s => dict_mem (baselines rep) s) all_signals /\
    keys (volatility rep) = keys (baselines rep).
Proof.
  intros Hwf. report_of df Hwf. split.
  - unfold expected_dicts at 1.
    rewrite (bupdate_loop_key_list df (map_columns df)
               (map_columns_NoDup df));
      [| intros k _ []].
    cbn [fst keys map app].
    rewrite (map_fst_filter_keys (map_columns df) _
               (fun s => dict_mem (fst (expected_dicts df)) s)).
    + rewrite map_columns_keys, filter_filter. apply filter_ext_in.
      intros s _. unfold dict_mem. rewrite expected_baseline_get.
      destruct (dict_get (map_columns df) s); reflexivity.
    + intros [s c] Hin. cbn [fst snd]. unfold dict_mem.
      rewrite expected_baseline_get.
      rewrite (In_dict_get _ s c (map_columns_NoDup df) Hin).
      destruct (valid_values df c); reflexivity.
  - symmetry. unfold expected_dicts. apply bupdate_loop_keys. reflexivity.
Qed.

(** X13: a cell that is missing after coercion never triggers its signal:
    the row's triggered list is computed without error and does not hold
    the signal. *)
Theorem missing_value_never_triggers (df : DataFrame) :
  wf_df df = true ->
  exists df' rep,
    run df = Some (df', rep) /\
    forall i r s col c,
      nth_error (rows df') i = Some r ->
      dict_get (map_columns df) s = Some col ->
      cell_at df i col = Some c ->
      PrimFloat.is_nan (to_numeric c) = true ->
      exists t,
        row_triggered df' (map_columns df) (baselines rep) r = Some t /\
        ~ In (signal_name s) t.
Proof.
  intros Hwf. state_of df Hwf.
  intros i r s col c Hr Hcol Hc Hnan.
  apply rows_coerced_nth in Hr. destruct Hr as [r0 [Hr0 ->]].
  rewrite (row_triggered_closed df _ i r0 Hwf Hr0).
  eexists. split; [reflexivity |].
  rewrite In_map_signal_name, In_triggered_signals.
  unfold satisfied, signal_value. rewrite Hcol. cbn [bind].
  rewrite Hc. cbn [bind]. rewrite Hnan.
  destruct (dict_get (fst (expected_dicts df)) s); discriminate.
Qed.



(** ** Further properties: the tables of the document *)

Lemma dict_get_keys_Some {V : Type} (d : dict V) (k : signal) :
  In k (keys d) -> exists v, dict_get d k = Some v.
Proof.
  intros H. destruct (dict_get d k) as [v |] eqn:E.
  - exists v. reflexivity.
  - apply dict_get_None_keys in E. contradiction.
Qed.

Lemma baseline_table_loop (round2 : float -> float) (bl vl : dict float)
  (ks : list signal) (acc : list (list tcell)) :
  (forall s, In s ks -> In s (keys bl) /\ In s (keys vl)) ->
  exists body,
    foldM
      (fun data signal =>
         b <- dict_get bl signal ;;
         v <- dict_get vl signal ;;
         Some (data ++ [[TText (signal_name signal);
                         TFloat (round2 b);
                         TFloat (round2 v)]]))
      ks acc = Some (acc ++ body) /\
    Forall2
      (fun s line =>
         exists b v,
           dict_get bl s = Some b /\ dict_get vl s = Some v /\
           line = [TText (signal_name s); TFloat (round2 b);
                   TFloat (round2 v)])
      ks body.
Proof.
  revert acc. induction ks as [| s ks IH]; intros acc H.
  - exists []. simpl. rewrite app_nil_r. split; [reflexivity | constructor].
  - destruct (H s (or_introl eq_refl)) as [Hb Hv].
    destruct (dict_get_keys_Some bl s Hb) as [b Eb].
    destruct (dict_get_keys_Some vl s Hv) as [v Ev].
    cbn [foldM]. rewrite Eb. cbn [bind]. rewrite Ev. cbn [bind].
    destruct (IH (acc ++ [[TText (signal_name s); TFloat (round2 b);
                           TFloat (round2 v)]]))
      as [body [Hfold Hall]].
    { intros s' Hs'. apply H. right. exact Hs'. }
    exists ([TText (signal_name s); TFloat (round2 b); TFloat (round2 v)]
            :: body).
    split.
    + rewrite Hfold, <- app_assoc. reflexivity.
    + constructor; [| exact Hall]. exists b, v. auto.
Qed.

Lemma deviation_table_loop (evs : list event) (acc : list (list tcell)) :
  fold_left
    (fun data r =>
       data ++ [[TInt (row r); TText (signals r); TInt (severity r)]])
    evs acc =
  acc ++ map (fun r => [TInt (row r); TText (signals r); TInt (severity r)])
             evs.
Proof.
  revert acc. induction evs as [| ev evs IH]; intros acc; simpl.
  - rewrite app_nil_r. reflexivity.
  - rewrite IH, <- app_assoc. reflexivity.
Qed.

(** X15: on a rectangular table the three tables of the document are
    built without a missing key: the baseline table has its heading and
    then, for each signal that has a baseline and in the order of the
    baselines, the name, the rounded baseline and the rounded volatility
    of that signal; the deviation table has its heading and one line per
    event, in order. *)
Theorem report_tables_built (round2 : float -> float) (df : DataFrame) :
  wf_df df = true ->
  exists rep tb body,
    upload_csv df = Some rep /\
    upload_csv_tables round2 df =
    Some (tb,
          [TText "Row"; TText "Signals Triggered"; TText "Severity"]
            :: map (fun r => [TInt (row r); TText (signals r);
                              TInt (severity r)])
                   (deviation_rows rep),
          summary_data (total_rows rep) (deviation_count rep)
                       (max_severity rep) (multi_signal rep)) /\
    tb = [TText "Signal"; TText "Median Baseline"; TText "Volatility (IQR)"]
           :: body /\
    Forall2
      (fun s line =>
         exists b v,
           dict_get (baselines rep) s = Some b /\
           dict_get (volatility rep) s = Some v /\
           line = [TText (signal_name s); TFloat (round2 b);
                   TFloat (round2 v)])
      (keys (baselines rep)) body.
Proof.
  intros Hwf. unfold upload_csv_tables.
  rewrite (upload_csv_closed df Hwf), (run_closed df Hwf).
  cbv zeta. cbn [bind baselines volatility deviation_rows].
  destruct (baseline_table_loop round2 (fst (expected_dicts df))
              (snd (expected_dicts df)) (keys (fst (expected_dicts df)))
              [[TText "Signal"; TText "Median Baseline";
                TText "Volatility (IQR)"]])
    as [body [Hfold Hall]].
  { intros s Hs. split; [exact Hs |].
    unfold expected_dicts in *.
    rewrite <- (bupdate_loop_keys df (map_columns df) ([], []) eq_refl).
    exact Hs. }
  eexists. eexists. exists body.
  split; [reflexivity |].
  cbn [baselines volatility deviation_rows total_rows deviation_count
       max_severity multi_signal].
  unfold baseline_table_data. rewrite Hfold. cbn [bind].
  unfold deviation_table_data. rewrite deviation_table_loop.
  split; [reflexivity |]. split; [reflexivity | exact Hall].
Qed.

End Pipeline.

(** ** The program on the example tables *)

(** Heart rates 100, 100, 100, 100, 130: baseline 100, volatility 1e-6
    (the quartiles coincide), and row 4 alone deviates, with severity 1. *)
Example scenario_heart_rate :
  upload_csv parse_nan np_median np_quantile df_hr =
  Some {| baselines := [(heart_rate, 100%float)];
          volatility := [(heart_rate, 1e-6%float)];
          deviation_rows :=
            [{| row := 4; signals := "heart_rate"; severity := 1 |}];
          total_rows := 5;
          deviation_count := 1;
          max_severity := 1;
          multi_signal := 0 |}.
Proof. vm_compute. reflexivity. Qed.

(** Saturations 98, 98, 98, 95: baseline 98 and only the row with 95
    deviates. *)
Example scenario_spo2 :
  option_map (fun rep => (baselines rep, deviation_rows rep))
    (upload_csv parse_nan np_median np_quantile df_spo2) =
  Some ([(spo2, 98%float)],
        [{| row := 3; signals := "spo2"; severity := 1 |}]).
Proof. vm_compute. reflexivity. Qed.

(** The headers [" HR "], ["hr"] and ["Heart Rate"] all name the heart
    rate. *)
Example scenario_aliases :
  map (header_matches heart_rate) [" HR "; "hr"; "Heart Rate"]%string =
  [true; true; true].
Proof. vm_compute. reflexivity. Qed.

(** The events of [df_vitals]: the signals come in canonical order although
    the headers do not. *)
Example scenario_vitals :
  option_map deviation_rows
    (upload_csv parse_nan np_median np_quantile df_vitals) =
  Some [{| row := 1; signals := "diastolic_bp"; severity := 1 |};
        {| row := 3;
           signals := "heart_rate, spo2, systolic_bp, diastolic_bp";
           severity := 4 |}].
Proof. vm_compute. reflexivity. Qed.

(** *** C1 *)

Lemma deviation_event_iff_satisfied_witness :
  wf_df df_vitals = true /\
  exists rep,
    upload_csv parse_nan np_median np_quantile df_vitals = Some rep /\
    (forall i, i < List.length (rows df_vitals) ->
       ((exists ev, In ev (deviation_rows rep) /\ row ev = i) <->
        (exists s col b c,
            dict_get (map_columns df_vitals) s = Some col /\
            dict_get (baselines rep) s = Some b /\
            cell_at df_vitals i col = Some c /\
            PrimFloat.is_nan (to_numeric parse_nan c) = false /\
            trigger_condition s (to_numeric parse_nan c) b = true))) /\
    (forall ev, In ev (deviation_rows rep) ->
       row ev < List.length (rows df_vitals) /\
       severity ev =
       List.length
         (filter (satisfied parse_nan df_vitals (baselines rep) (row ev))
                 all_signals)).
Proof.
  split; [reflexivity |].
  apply (deviation_event_iff_satisfied parse_nan np_median np_quantile
           df_vitals).
  reflexivity.
Defined.

(** *** C2 *)

(** With the headers ["hr"] and ["Heart Rate"], the first header that
    matches is ["hr"], and the program maps the heart rate to
    ["Heart Rate"]. *)
Lemma first_match_not_selected :
  first_match heart_rate (columns df_two_hr) = Some "hr"%string /\
  dict_get (map_columns df_two_hr) heart_rate = Some "Heart Rate"%string /\
  dict_get (map_columns df_two_hr) heart_rate <>
  first_match heart_rate (columns df_two_hr).
Proof.
  split; [vm_compute; reflexivity |].
  split; [vm_compute; reflexivity |].
  vm_compute. discriminate.
Qed.

Lemma column_resolver_keeps_last_match_witness :
  dict_get (map_columns df_two_hr) heart_rate =
  last_match heart_rate (columns df_two_hr) /\
  (forall col, dict_get (map_columns df_two_hr) heart_rate = Some col ->
     header_matches heart_rate col = true /\
     exists before after,
       columns df_two_hr = before ++ col :: after /\
       forallb (fun h => negb (header_matches heart_rate h)) after = true) /\
  (dict_get (map_columns df_two_hr) heart_rate = None <->
   forall h, In h (columns df_two_hr) -> header_matches heart_rate h = false).
Proof.
  apply (column_resolver_keeps_last_match df_two_hr heart_rate).
Defined.

(** *** C3 *)

(** On [df_tight] the quartiles are 60 and 60.0000005: the stored
    volatility is their difference, which is positive and below 1e-6. *)
Lemma volatility_below_epsilon :
  exists rep v,
    upload_csv parse_nan np_median np_quantile df_tight = Some rep /\
    dict_get (volatility rep) heart_rate = Some v /\
    (0 <? v)%float = true /\
    (v <? 1e-6)%float = true.
Proof.
  eexists. eexists.
  split; [vm_compute; reflexivity |].
  split; [vm_compute; reflexivity |].
  split; vm_compute; reflexivity.
Qed.

Lemma volatility_is_iqr_or_epsilon_witness :
  wf_df df_tight = true /\
  exists rep,
    upload_csv parse_nan np_median np_quantile df_tight = Some rep /\
    forall s v, dict_get (volatility rep) s = Some v ->
      exists col,
        dict_get (map_columns df_tight) s = Some col /\
        valid_values parse_nan df_tight col <> [] /\
        (let xs := valid_values parse_nan df_tight col in
         let iqr := (np_quantile xs 0.75 - np_quantile xs 0.25)%float in
         v = if (iqr =? 0)%float then 1e-6%float else iqr) /\
        (v =? 0)%float = false.
Proof.
  split; [reflexivity |].
  apply (volatility_is_iqr_or_epsilon parse_nan np_median np_quantile
           df_tight).
  reflexivity.
Defined.

(** *** C4 *)

Lemma trigger_conditions_exact_witness :
  wf_df df_vitals = true /\
  exists df' rep,
    run parse_nan np_median np_quantile df_vitals = Some (df', rep) /\
    forall i r s col b c,
      nth_error (rows df') i = Some r ->
      dict_get (map_columns df_vitals) s = Some col ->
      dict_get (baselines rep) s = Some b ->
      cell_at df_vitals i col = Some c ->
      PrimFloat.is_nan (to_numeric parse_nan c) = false ->
      exists t,
        row_triggered df' (map_columns df_vitals) (baselines rep) r
        = Some t /\
        let v := to_numeric parse_nan c in
        (In (signal_name s) t <->
         match s with
         | heart_rate => (0.15 <? abs (v - b) / b)%float = true
         | spo2 => (2 <? b - v)%float = true
         | systolic_bp => (10 <? abs (v - b))%float = true
         | diastolic_bp => (5 <? abs (v - b))%float = true
         end).
Proof.
  split; [reflexivity |].
  apply (trigger_conditions_exact parse_nan np_median np_quantile df_vitals).
  reflexivity.
Defined.

(** *** C5 *)

Lemma total_rows_is_row_count_witness :
  wf_df df_vitals = true /\
  exists rep,
    upload_csv parse_nan np_median np_quantile df_vitals = Some rep /\
    total_rows rep = List.length (rows df_vitals).
Proof.
  split; [reflexivity |].
  apply (total_rows_is_row_count parse_nan np_median np_quantile df_vitals).
  reflexivity.
Defined.

(** *** C6 *)

Lemma unbaselined_signal_skipped_witness :
  (wf_df df_text_column = true /\
   dict_get (map_columns df_text_column) spo2 = Some "spo2"%string /\
   forall i c, cell_at df_text_column i "spo2" = Some c ->
               PrimFloat.is_nan (to_numeric parse_nan c) = true) /\
  exists df' rep,
    run parse_nan np_median np_quantile df_text_column = Some (df', rep) /\
    dict_get (baselines rep) spo2 = None /\
    dict_get (volatility rep) spo2 = None /\
    (forall i r, nth_error (rows df') i = Some r ->
       exists t,
         row_triggered df' (map_columns df_text_column) (baselines rep) r
         = Some t /\
         ~ In (signal_name spo2) t) /\
    (forall i, satisfied parse_nan df_text_column (baselines rep) i spo2
               = false).
Proof.
  assert (Hcells : forall i c,
             cell_at df_text_column i "spo2" = Some c ->
             PrimFloat.is_nan (to_numeric parse_nan c) = true).
  { intros i c H.
    do 3 (destruct i as [| i];
          [vm_compute in H; inversion H; reflexivity |]).
    destruct i; vm_compute in H; discriminate H. }
  split.
  - split; [reflexivity |]. split; [reflexivity | exact Hcells].
  - apply (unbaselined_signal_skipped parse_nan np_median np_quantile
             df_text_column spo2 "spo2").
    + reflexivity.
    + reflexivity.
    + exact Hcells.
Defined.

(** *** C8 *)

Lemma rerun_identical_witness :
  (wf_df df_vitals = true /\ df_vitals = df_vitals) /\
  exists df' rep,
    run parse_nan np_median np_quantile df_vitals = Some (df', rep) /\
    run parse_nan np_median np_quantile df_vitals = Some (df', rep) /\
    run parse_nan np_median np_quantile df' = Some (df', rep).
Proof.
  split; [split; reflexivity |].
  apply (rerun_identical parse_nan np_median np_quantile df_vitals df_vitals).
  - reflexivity.
  - reflexivity.
Defined.

(** *** C9 *)

Lemma baseline_volatility_same_keys_witness :
  wf_df df_text_column = true /\
  exists rep,
    upload_csv parse_nan np_median np_quantile df_text_column = Some rep /\
    keys (baselines rep) = keys (volatility rep) /\
    forall s,
      (exists b, dict_get (baselines rep) s = Some b) <->
      (exists v, dict_get (volatility rep) s = Some v).
Proof.
  split; [reflexivity |].
  apply (baseline_volatility_same_keys parse_nan np_median np_quantile
           df_text_column).
  reflexivity.
Defined.

(** *** C10 *)

Lemma triggered_order_canonical_witness :
  wf_df df_vitals = true /\
  exists rep,
    upload_csv parse_nan np_median np_quantile df_vitals = Some rep /\
    forall ev, In ev (deviation_rows rep) ->
      exists t : list signal,
        signals ev = String.concat ", " (map signal_name t) /\
        severity ev = List.length t /\
        (exists keep, t = filter keep all_signals) /\
        NoDup t /\
        1 <= severity ev <= 4.
Proof.
  split; [reflexivity |].
  apply (triggered_order_canonical parse_nan np_median np_quantile df_vitals).
  reflexivity.
Defined.

(** ** The classifier does not read the volatility *)

Lemma bupdate_loop_fst_any_quantile (parse : string -> float)
  (median : list float -> float) (q1 q2 : list float -> float -> float)
  (df : DataFrame) (items : dict string) :
  forall bv1 bv2,
    fst bv1 = fst bv2 ->
    fst (fold_left (bupdate parse median q1 df) items bv1) =
    fst (fold_left (bupdate parse median q2 df) items bv2).
Proof.
  induction items as [| item items IH]; intros bv1 bv2 H; simpl.
  - exact H.
  - apply IH. unfold bupdate.
    destruct (valid_values parse df (snd item)); [exact H |].
    cbn [fst]. rewrite H. reflexivity.
Qed.

(** X16: baselines, events and counters do not depend on how the
    quartiles are computed: with any two quantile functions the two
    reports differ at most in their volatilities. *)
Theorem events_independent_of_volatility (parse : string -> float)
  (median : list float -> float) (q1 q2 : list float -> float -> float)
  (df : DataFrame) :
  wf_df df = true ->
  exists rep1 rep2,
    upload_csv parse median q1 df = Some rep1 /\
    upload_csv parse median q2 df = Some rep2 /\
    baselines rep1 = baselines rep2 /\
    deviation_rows rep1 = deviation_rows rep2 /\
    total_rows rep1 = total_rows rep2 /\
    deviation_count rep1 = deviation_count rep2 /\
    max_severity rep1 = max_severity rep2 /\
    multi_signal rep1 = multi_signal rep2.
Proof.
  intros Hwf.
  rewrite (upload_csv_closed parse median q1 df Hwf).
  rewrite (upload_csv_closed parse median q2 df Hwf).
  do 2 eexists. split; [reflexivity |]. split; [reflexivity |].
  cbv zeta.
  cbn [baselines volatility deviation_rows total_rows deviation_count
       max_severity multi_signal].
  assert (E : fst (expected_dicts parse median q1 df) =
              fst (expected_dicts parse median q2 df)).
  { unfold expected_dicts. apply bupdate_loop_fst_any_quantile.
    reflexivity. }
  rewrite E. repeat split; reflexivity.
Qed.

(** ** The further properties on the example tables *)


Lemma deviation_count_counts_rows_witness :
  wf_df df_vitals = true /\
  exists rep,
    upload_csv parse_nan np_median np_quantile df_vitals = Some rep /\
    deviation_count rep =
    List.length
      (filter (fun i => existsb
                 (satisfied parse_nan df_vitals (baselines rep) i)
                 all_signals)
              (seq 0 (List.length (rows df_vitals)))) /\
    deviation_count rep <= total_rows rep.
Proof.
  split; [reflexivity |].
  apply (deviation_count_counts_rows parse_nan np_median np_quantile
           df_vitals).
  reflexivity.
Defined.

Lemma max_severity_is_maximum_witness :
  wf_df df_vitals = true /\
  exists rep,
    upload_csv parse_nan np_median np_quantile df_vitals = Some rep /\
    (forall ev, In ev (deviation_rows rep) ->
                severity ev <= max_severity rep) /\
    (deviation_rows rep <> [] ->
     exists ev, In ev (deviation_rows rep) /\
                severity ev = max_severity rep) /\
    (max_severity rep = 0 <-> deviation_rows rep = []) /\
    max_severity rep <= 4.
Proof.
  split; [reflexivity |].
  apply (max_severity_is_maximum parse_nan np_median np_quantile df_vitals).
  reflexivity.
Defined.

Lemma multi_signal_bounds_witness :
  wf_df df_vitals = true /\
  exists rep,
    upload_csv parse_nan np_median np_quantile df_vitals = Some rep /\
    multi_signal rep <= deviation_count rep /\
    (multi_signal rep = 0 <-> max_severity rep <= 1).
Proof.
  split; [reflexivity |].
  apply (multi_signal_bounds parse_nan np_median np_quantile df_vitals).
  reflexivity.
Defined.

Lemma header_padding_and_case_ignored_witness :
  (all_space " " = true /\ all_space "  " = true) /\
  header_matches heart_rate (" " ++ "Heart Rate" ++ "  ")
  = header_matches heart_rate "Heart Rate" /\
  header_matches heart_rate (lower "Heart Rate")
  = header_matches heart_rate "Heart Rate".
Proof.
  split; [split; reflexivity |].
  apply (header_padding_and_case_ignored heart_rate " " "Heart Rate" "  ").
  - reflexivity.
  - reflexivity.
Defined.

Lemma mapping_depends_on_normalised_headers_witness :
  Forall2 (fun h1 h2 => lower (strip h1) = lower (strip h2))
          (columns df_hr) (columns df_tight) /\
  keys (map_columns df_hr) = keys (map_columns df_tight) /\
  forall s,
    match dict_get (map_columns df_hr) s,
          dict_get (map_columns df_tight) s with
    | Some c1, Some c2 => lower (strip c1) = lower (strip c2)
    | None, None => True
    | _, _ => False
    end.
Proof.
  assert (H : Forall2 (fun h1 h2 => lower (strip h1) = lower (strip h2))
                (columns df_hr) (columns df_tight)).
  { constructor; [reflexivity | constructor]. }
  split; [exact H |].
  apply (mapping_depends_on_normalised_headers df_hr df_tight). exact H.
Defined.

Lemma mapping_is_injective_witness :
  dict_get (map_columns df_two_hr) heart_rate = Some "Heart Rate"%string /\
  In "Heart Rate"%string (columns df_two_hr) /\ heart_rate = heart_rate.
Proof.
  split; [reflexivity |].
  apply (mapping_is_injective df_two_hr heart_rate heart_rate "Heart Rate").
  - reflexivity.
  - reflexivity.
Defined.

Lemma no_resolvable_columns_witness :
  (forall s h, In h (columns df_unrelated) -> header_matches s h = false) /\
  run parse_nan np_median np_quantile df_unrelated =
  Some (df_unrelated,
        {| baselines := [];
           volatility := [];
           deviation_rows := [];
           total_rows := List.length (rows df_unrelated);
           deviation_count := 0;
           max_severity := 0;
           multi_signal := 0 |}).
Proof.
  assert (H : forall s h, In h (columns df_unrelated) ->
                          header_matches s h = false).
  { intros s h [<- | [<- | []]]; destruct s; reflexivity. }
  split; [exact H |].
  apply (no_resolvable_columns parse_nan np_median np_quantile df_unrelated).
  exact H.
Defined.

Lemma unmapped_signal_absent_witness :
  (wf_df df_hr = true /\
   forall h, In h (columns df_hr) -> header_matches spo2 h = false) /\
  exists df' rep,
    run parse_nan np_median np_quantile df_hr = Some (df', rep) /\
    dict_get (baselines rep) spo2 = None /\
    dict_get (volatility rep) spo2 = None /\
    forall i r, nth_error (rows df') i = Some r ->
      exists t,
        row_triggered df' (map_columns df_hr) (baselines rep) r = Some t /\
        ~ In (signal_name spo2) t.
Proof.
  assert (H : forall h, In h (columns df_hr) ->
                        header_matches spo2 h = false).
  { intros h [<- | []]. reflexivity. }
  split; [split; [reflexivity | exact H] |].
  apply (unmapped_signal_absent parse_nan np_median np_quantile df_hr spo2).
  - reflexivity.
  - exact H.
Defined.


Lemma baseline_is_median_of_valid_values_witness :
  wf_df df_vitals = true /\
  exists rep,
    upload_csv parse_nan np_median np_quantile df_vitals = Some rep /\
    forall s b,
      dict_get (baselines rep) s = Some b <->
      exists col,
        dict_get (map_columns df_vitals) s = Some col /\
        valid_values parse_nan df_vitals col <> [] /\
        b = np_median (valid_values parse_nan df_vitals col).
Proof.
  split; [reflexivity |].
  apply (baseline_is_median_of_valid_values parse_nan np_median np_quantile
           df_vitals).
  reflexivity.
Defined.

Lemma baselines_in_canonical_order_witness :
  wf_df df_vitals = true /\
  exists rep,
    upload_csv parse_nan np_median np_quantile df_vitals = Some rep /\
    keys (baselines rep) =
    filter (fun s => dict_mem (baselines rep) s) all_signals /\
    keys (volatility rep) = keys (baselines rep).
Proof.
  split; [reflexivity |].
  apply (baselines_in_canonical_order parse_nan np_median np_quantile
           df_vitals).
  reflexivity.
Defined.

Lemma missing_value_never_triggers_witness :
  wf_df df_vitals = true /\
  exists df' rep,
    run parse_nan np_median np_quantile df_vitals = Some (df', rep) /\
    forall i r s col c,
      nth_error (rows df') i = Some r ->
      dict_get (map_columns df_vitals) s = Some col ->
      cell_at df_vitals i col = Some c ->
      PrimFloat.is_nan (to_numeric parse_nan c) = true ->
      exists t,
        row_triggered df' (map_columns df_vitals) (baselines rep) r
        = Some t /\
        ~ In (signal_name s) t.
Proof.
  split; [reflexivity |].
  apply (missing_value_never_triggers parse_nan np_median np_quantile
           df_vitals).
  reflexivity.
Defined.


Lemma report_tables_built_witness :
  wf_df df_vitals = true /\
  exists rep tb body,
    upload_csv parse_nan np_median np_quantile df_vitals = Some rep /\
    upload_csv_tables parse_nan np_median np_quantile (fun x => x) df_vitals =
    Some (tb,
          [TText "Row"; TText "Signals Triggered"; TText "Severity"]
            :: map (fun r => [TInt (row r); TText (signals r);
                              TInt (severity r)])
                   (deviation_rows rep),
          summary_data (total_rows rep) (deviation_count rep)
                       (max_severity rep) (multi_signal rep)) /\
    tb = [TText "Signal"; TText "Median Baseline"; TText "Volatility (IQR)"]
           :: body /\
    Forall2
      (fun s line =>
         exists b v,
           dict_get (baselines rep) s = Some b /\
           dict_get (volatility rep) s = Some v /\
           line = [TText (signal_name s); TFloat b; TFloat v])
      (keys (baselines rep)) body.
Proof.
  split; [reflexivity |].
  apply (report_tables_built parse_nan np_median np_quantile (fun x => x)
           df_vitals).
  reflexivity.
Defined.

Lemma events_independent_of_volatility_witness :
  wf_df df_vitals = true /\
  exists rep1 rep2,
    upload_csv parse_nan np_median np_quantile df_vitals = Some rep1 /\
    upload_csv parse_nan np_median (fun _ q => q) df_vitals = Some rep2 /\
    baselines rep1 = baselines rep2 /\
    deviation_rows rep1 = deviation_rows rep2 /\
    total_rows rep1 = total_rows rep2 /\
    deviation_count rep1 = deviation_count rep2 /\
    max_severity rep1 = max_severity rep2 /\
    multi_signal rep1 = multi_signal rep2.
Proof.
  split; [reflexivity |].
  apply (events_independent_of_volatility parse_nan np_median np_quantile
           (fun _ q => q) df_vitals).
  reflexivity.
Defined.
